(** * WebpackCompilerHost: the compiler host of @ngtools/webpack

    A shallow embedding of [packages/ngtools/webpack/src/compiler_host.ts]
    and the properties of its documented contract.

    The host sits between the TypeScript compiler and the devkit's virtual
    file system.  The path functions ([normalize], [isAbsolute], [join],
    [getSystemPath]) and the [virtualFs] hosts are imported from
    [@angular-devkit/core]; here they are interfaces (type classes), and
    the class is written once against them.  Exceptions are results,
    the state of the class and of the hosts is passed explicitly, and the
    random numbers of the process are read from a tape.

    Reference implementations of the interfaces follow the class.  They
    give the general theorems their instances and the concrete runs their
    inputs.  [getDefaultLibFileName] only calls the compiler and is left
    out; of [ts.createSourceFile] only the arguments are kept. *)

From Stdlib Require Import ZArith String Ascii List Bool Lia.
From stdpp Require Import base option list strings gmap.

Local Open Scope string_scope.
Local Open Scope list_scope.

(** ** JavaScript preliminaries *)

(** A call either returns a value or throws an exception with a message. *)
Inductive result (A : Type) : Type :=
  | Ok (value : A)
  | Throw (message : string).
Arguments Ok {A} value.
Arguments Throw {A} message.

#[global] Instance result_ret : MRet result := fun A a => Ok a.
#[global] Instance result_bind : MBind result := fun A B f m =>
  match m with
  | Ok a => f a
  | Throw e => Throw e
  end.
#[global] Instance result_fmap : FMap result := fun A B f m =>
  match m with
  | Ok a => Ok (f a)
  | Throw e => Throw e
  end.

(** [a && b] and [a || b] on calls that may throw: the right operand is
    evaluated only when the left one does not decide. *)
Definition and_then (a b : result bool) : result bool :=
  x ← a; if x : bool then b else Ok false.
Definition or_else (a b : result bool) : result bool :=
  x ← a; if x : bool then Ok true else b.
Definition not_ (a : result bool) : result bool := negb <$> a.

(** [Array.prototype.map] with a callback that may throw: the first
    exception ends the traversal. *)
Fixpoint map_result {A B : Type} (f : A -> result B) (l : list A) : result (list B) :=
  match l with
  | [] => Ok []
  | x :: l' => y ← f x; ys ← map_result f l'; Ok (y :: ys)
  end.

(** The values that occur in the objects of this file.  Numbers are the
    integers the program handles (sizes, counts, millisecond time stamps);
    every one of them is far below 2^53, where the arithmetic used here is
    exact on doubles. *)
Inductive JsValue : Type :=
  | VUndefined
  | VBoolean (b : bool)
  | VNumber (n : Z)
  | VDate (ms : Z)
  | VFunction (body : unit -> JsValue).

(** ToBoolean: what a condition makes of a value.  A function object is
    truthy whatever it would return. *)
Definition ToBoolean (v : JsValue) : bool :=
  match v with
  | VUndefined => false
  | VBoolean b => b
  | VNumber n => negb (n =? 0)%Z
  | VDate _ => true
  | VFunction _ => true
  end.

(** Objects as finite maps from property names to values. *)
Definition object_literal (fields : list (string * JsValue)) : gmap string JsValue :=
  foldl (fun o kv => <[kv.1 := kv.2]> o) ∅ fields.

(** [{ ...o, ...src }]: the properties of [src] are copied over [o]. *)
Definition spread (o src : gmap string JsValue) : gmap string JsValue := src ∪ o.

(** [Set.prototype.add] on a set kept in insertion order. *)
Definition Set_add (x : string) (s : list string) : list string :=
  if decide (x ∈ s) then s else s ++ [x].

Definition startsWith (s prefix : string) : bool := String.prefix prefix s.

Definition endsWith (s suffix : string) : bool :=
  let n := String.length s in
  let m := String.length suffix in
  if (m <=? n)%nat then String.eqb (String.substring (n - m) m s) suffix else false.

Definition toLowerCase_ascii (c : ascii) : ascii :=
  let n := nat_of_ascii c in
  if ((65 <=? n) && (n <=? 90))%nat then ascii_of_nat (n + 32) else c.

(** [String.prototype.toLowerCase], on the ASCII letters. *)
Fixpoint toLowerCase (s : string) : string :=
  match s with
  | EmptyString => EmptyString
  | String c s' => String (toLowerCase_ascii c) (toLowerCase s')
  end.

(** [s.replace(/\\/g, '/')]. *)
Fixpoint backslashes_to_slashes (s : string) : string :=
  match s with
  | EmptyString => EmptyString
  | String c s' =>
      String (if Ascii.eqb c (ascii_of_nat 92) then "/"%char else c)
        (backslashes_to_slashes s')
  end.

Definition digit_value (c : ascii) : option Z :=
  let n := nat_of_ascii c in
  if ((48 <=? n) && (n <=? 57))%nat then Some (Z.of_nat (n - 48)) else None.

Fixpoint parseInt_from (radix acc : Z) (s : string) : Z :=
  match s with
  | EmptyString => acc
  | String c s' =>
      match digit_value c with
      | Some d => if (d <? radix)%Z then parseInt_from radix (acc * radix + d) s' else acc
      | None => acc
      end
  end.

(** [parseInt(s, radix)] on a string that starts with a digit of the radix. *)
Definition parseInt (s : string) (radix : Z) : Z := parseInt_from radix 0 s.

(** [Math.random()]: the draws of a process, in the order they are made.
    A draw is a double in [0, 1); it is given by its numerator over 2^53. *)
Record Rng : Type := { tape : nat -> Z; pos : nat }.

Definition Math_random (g : Rng) : Z * Rng :=
  (tape g (pos g), {| tape := tape g; pos := S (pos g) |}).

(** [Math.floor(Math.random() * k)]. *)
Definition random_below (k : Z) (g : Rng) : Z * Rng :=
  let '(r, g') := Math_random g in ((r * k) / 2 ^ 53, g')%Z.

(** [Math.ceil(n / d)] for integers with [0 < d]. *)
Definition Math_ceil_div (n d : Z) : Z := (- ((- n) / d))%Z.

(** ** The imported interfaces *)

(** [Path] is a branded string. *)
Definition Path : Type := string.

(** [FileBuffer] is an [ArrayBuffer]. *)
Definition FileBuffer : Type := list Byte.byte.

(** The path functions of [@angular-devkit/core]. [normalize] throws on a
    path that climbs above the root; [join] normalizes its result. *)
Class PathOps : Type := {
  normalize : string -> result Path;
  isAbsolute : Path -> bool;
  join : Path -> string -> result Path;
  getSystemPath : Path -> string;
}.

Module virtualFs.

(** [virtualFs.Stats<{}>]: the declared members, and whatever other own
    properties the host's object carries ([extra]). *)
Record Stats : Type := {
  st_isFile : bool;
  st_isDirectory : bool;
  size : Z;
  atime : Z;
  mtime : Z;
  ctime : Z;
  birthtime : Z;
  extra : gmap string JsValue;
}.

(** The own enumerable properties of a stats object, which a spread
    copies: the declared members and the further ones. *)
Definition own_properties (s : Stats) : gmap string JsValue :=
  spread (extra s)
    (object_literal
       [("isFile", VFunction (fun _ => VBoolean (st_isFile s)));
        ("isDirectory", VFunction (fun _ => VBoolean (st_isDirectory s)));
        ("size", VNumber (size s));
        ("atime", VDate (atime s));
        ("mtime", VDate (mtime s));
        ("ctime", VDate (ctime s));
        ("birthtime", VDate (birthtime s))]).

(** A host seen through [SyncDelegateHost]: every call returns at once or
    throws. *)
Class ReadonlyHost (H : Type) : Type := {
  exists_ : H -> Path -> result bool;
  isFile : H -> Path -> result bool;
  isDirectory : H -> Path -> result bool;
  read : H -> Path -> result FileBuffer;
  stat : H -> Path -> result (option Stats);
  list_ : H -> Path -> result (list string);
}.

(** [write] changes the host; when it throws, the host is left as the
    failed call made it. *)
Class Host (H : Type) `{ReadonlyHost H} : Type := {
  write : H -> Path -> FileBuffer -> H * result unit;
}.

Inductive CordHostRecord : Type :=
  | CordHostCreate (path : Path) (content : FileBuffer)
  | CordHostOverwrite (path : Path) (content : FileBuffer)
  | CordHostRename (from to : Path)
  | CordHostDelete (path : Path).

Definition kind (r : CordHostRecord) : string :=
  match r with
  | CordHostCreate _ _ => "create"
  | CordHostOverwrite _ _ => "overwrite"
  | CordHostRename _ _ => "rename"
  | CordHostDelete _ => "delete"
  end.

Definition record_path (r : CordHostRecord) : option Path :=
  match r with
  | CordHostCreate p _ | CordHostOverwrite p _ | CordHostDelete p => Some p
  | CordHostRename _ _ => None
  end.

(** [CordHost]: an overlay [C] that records changes over a backend [B]. *)
Class CordHost (C B : Type) `{Host C} `{ReadonlyHost B} : Type := {
  newCordHost : B -> C;
  records : C -> result (list CordHostRecord);
  backend : C -> B;
}.

(** [stringToFileBuffer] and [fileBufferToString]. *)
Class Codec : Type := {
  stringToFileBuffer : string -> FileBuffer;
  fileBufferToString : FileBuffer -> string;
}.

End virtualFs.

(** ** The module and the class *)

(** What the module reads from its process: [process.platform], and the
    constant [dev], drawn once when the module is loaded. *)
Record Process : Type := {
  platform : string;
  dev : Z;
}.

(** [const dev = Math.floor(Math.random() * 10000)]. *)
Definition load_module (platform : string) (g : Rng) : Process * Rng :=
  let '(d, g') := random_below 10000 g in
  ({| platform := platform; dev := d |}, g').

(** [OnErrorFn]: a callback returns nothing; it is given by the line it
    reports for a message, and the lines reported during a call are
    returned with the result of the call. *)
Definition OnErrorFn : Type := string -> string.

(** What [ts.createSourceFile] is given. *)
Record SourceFile : Type := createSourceFile {
  sf_fileName : string;
  sf_sourceText : string;
  sf_languageVersion : Z;
  sf_setParentNodes : bool;
}.

(** [WebpackResourceLoader], as far as the host uses it: [get]. *)
Record WebpackResourceLoader : Type := {
  get : string -> result string;
}.

(** The fields of the class. [_changedFiles] is a [Set<string>]; it is kept
    as the list of its members in insertion order, which is what the spread
    in [getChangedFilePaths] yields. [_options] is stored for the compiler
    and read by no method. *)
Record WebpackCompilerHost (C : Type) : Type := {
  _syncHost : C;
  _changedFiles : list string;
  _basePath : Path;
  _resourceLoader : option WebpackResourceLoader;
}.
Arguments _syncHost {C} _.
Arguments _changedFiles {C} _.
Arguments _basePath {C} _.
Arguments _resourceLoader {C} _.

Section Adapter.
Context `{PathOps} `{virtualFs.Codec}.
Context {C B : Type}.
Context `{!virtualFs.ReadonlyHost C, !virtualFs.Host C}.
Context `{!virtualFs.ReadonlyHost B, !virtualFs.CordHost C B}.

Implicit Types (h : WebpackCompilerHost C) (fileName path : string).

Definition constructor (basePath : string) (host : B) : result (WebpackCompilerHost C) :=
  base ← normalize basePath;
  Ok {| _syncHost := virtualFs.newCordHost host;
        _changedFiles := [];
        _basePath := base;
        _resourceLoader := None |}.

Definition virtualFiles h : result (list Path) :=
  all ← virtualFs.records (_syncHost h);
  Ok (omap virtualFs.record_path
        (List.filter (fun record => String.eqb (virtualFs.kind record) "create") all)).

Definition denormalizePath path : result string :=
  getSystemPath <$> normalize path.

Definition resolve h path : result Path :=
  p ← normalize path;
  if isAbsolute p then Ok p else join (_basePath h) p.

Definition resetChangedFileTracker h : WebpackCompilerHost C :=
  {| _syncHost := _syncHost h;
     _changedFiles := [];
     _basePath := _basePath h;
     _resourceLoader := _resourceLoader h |}.

Definition getChangedFilePaths h : list string := _changedFiles h.

Definition getNgFactoryPaths h : result (list string) :=
  files ← virtualFiles h;
  map_result denormalizePath
    (List.filter (fun fileName =>
                    endsWith fileName ".ngfactory.js" || endsWith fileName ".ngstyle.js")
       files).

(** [delegate] defaults to [true] in the source. *)
Definition fileExists h fileName (delegate : bool) : result bool :=
  p ← resolve h fileName;
  exists_ ← and_then (virtualFs.exists_ (_syncHost h) p) (virtualFs.isFile (_syncHost h) p);
  if delegate then Ok exists_
  else
    let backend := virtualFs.backend (_syncHost h) in
    and_then (Ok exists_)
      (not_ (and_then (virtualFs.exists_ backend p) (virtualFs.isFile backend p))).

Definition invalidate h fileName : result (WebpackCompilerHost C) :=
  fullPath ← resolve h fileName;
  e ← fileExists h fileName true;
  if e : bool then
    Ok {| _syncHost := _syncHost h;
          _changedFiles := Set_add fullPath (_changedFiles h);
          _basePath := _basePath h;
          _resourceLoader := _resourceLoader h |}
  else Ok h.

Definition readFile h fileName : result (option string) :=
  filePath ← resolve h fileName;
  absent ← or_else (not_ (virtualFs.exists_ (_syncHost h) filePath))
                   (not_ (virtualFs.isFile (_syncHost h) filePath));
  if absent : bool then Ok None
  else buffer ← virtualFs.read (_syncHost h) filePath;
       Ok (Some (virtualFs.fileBufferToString buffer)).

(** [Buffer.from(arrayBuffer)] holds the same bytes. *)
Definition readFileBuffer h fileName : result (option FileBuffer) :=
  filePath ← resolve h fileName;
  absent ← or_else (not_ (virtualFs.exists_ (_syncHost h) filePath))
                   (not_ (virtualFs.isFile (_syncHost h) filePath));
  if absent : bool then Ok None
  else buffer ← virtualFs.read (_syncHost h) filePath;
       Ok (Some buffer).

(** The object literal of [stat], before [...stats]. *)
Definition stat_fields (pr : Process) (ino : Z) (stats : virtualFs.Stats)
  : list (string * JsValue) :=
  [("isBlockDevice", VFunction (fun _ => VBoolean false));
   ("isCharacterDevice", VFunction (fun _ => VBoolean false));
   ("isFIFO", VFunction (fun _ => VBoolean false));
   ("isSymbolicLink", VFunction (fun _ => VBoolean false));
   ("isSocket", VFunction (fun _ => VBoolean false));
   ("dev", VNumber (dev pr));
   ("ino", VNumber ino);
   ("mode", VNumber (parseInt "777" 8));
   ("nlink", VNumber 1);
   ("uid", VNumber 0);
   ("gid", VNumber 0);
   ("rdev", VNumber 0);
   ("blksize", VNumber 512);
   ("blocks", VNumber (Math_ceil_div (virtualFs.size stats) 512));
   ("atimeMs", VNumber (virtualFs.atime stats));
   ("mtimeMs", VNumber (virtualFs.mtime stats));
   ("ctimeMs", VNumber (virtualFs.ctime stats));
   ("birthtimeMs", VNumber (virtualFs.birthtime stats))].

(** [stat] returns [null] ([None]) or the object; it draws one random
    number when it builds the object. *)
Definition stat (pr : Process) h path (g : Rng)
  : result (option (gmap string JsValue) * Rng) :=
  p ← resolve h path;
  e ← virtualFs.exists_ (_syncHost h) p;
  stats ← (if e : bool then virtualFs.stat (_syncHost h) p else Ok None);
  match stats with
  | None => Ok (None, g)
  | Some stats =>
      let '(ino, g') := random_below 100000 g in
      Ok (Some (spread (object_literal (stat_fields pr ino stats))
                  (virtualFs.own_properties stats)), g')
  end.

Definition directoryExists h directoryName : result bool :=
  p ← resolve h directoryName;
  and_then (virtualFs.exists_ (_syncHost h) p) (virtualFs.isDirectory (_syncHost h) p).

Definition getDirectories h path : result (list string) :=
  p ← resolve h path;
  Ok match virtualFs.list_ (_syncHost h) p with
     | Ok names =>
         List.filter (fun x =>
                        match q ← join p x; virtualFs.isDirectory (_syncHost h) q with
                        | Ok b => b
                        | Throw _ => false
                        end) names
     | Throw _ => []
     end.

(** [workaroundResolve], the function at the end of the module. *)
Definition workaroundResolve path : result string :=
  backslashes_to_slashes <$> (getSystemPath <$> normalize path).

(** [content != undefined] holds for every string, the empty one too. *)
Definition getSourceFile h fileName (languageVersion : Z) (onError : option OnErrorFn)
  : option SourceFile * list string :=
  match
    content ← readFile h fileName;
    match content with
    | Some content =>
        name ← workaroundResolve fileName;
        Ok (Some (createSourceFile name content languageVersion true))
    | None => Ok None
    end
  with
  | Ok sourceFile => (sourceFile, [])
  | Throw message =>
      match onError with
      | Some report => (None, [report message])
      | None => (None, [])
      end
  end.

(** The getter [writeFile] returns this function. The exception of
    [write] is caught; one of [resolve] is not. [_writeByteOrderMark] and
    [_sourceFiles] are not used. *)
Definition writeFile h fileName (data : string) (_writeByteOrderMark : bool)
    (onError : option OnErrorFn) : result (WebpackCompilerHost C * list string) :=
  p ← resolve h fileName;
  let '(host', outcome) := virtualFs.write (_syncHost h) p (virtualFs.stringToFileBuffer data) in
  let h' := {| _syncHost := host';
               _changedFiles := _changedFiles h;
               _basePath := _basePath h;
               _resourceLoader := _resourceLoader h |} in
  match outcome with
  | Ok _ => Ok (h', [])
  | Throw message =>
      match onError with
      | Some report => Ok (h', [report message])
      | None => Ok (h', [])
      end
  end.

Definition getCurrentDirectory h : string := _basePath h.

Definition useCaseSensitiveFileNames (pr : Process) : bool :=
  negb (startsWith (platform pr) "win32").

(** The condition reads the property [this.useCaseSensitiveFileNames], the
    method itself; it does not call it. *)
Definition getCanonicalFileName (pr : Process) h fileName : result string :=
  path ← resolve h fileName;
  Ok (if ToBoolean (VFunction (fun _ => VBoolean (useCaseSensitiveFileNames pr)))
      then path else toLowerCase path).

Definition getNewLine : string := String (ascii_of_nat 10) EmptyString.

Definition setResourceLoader h (resourceLoader : WebpackResourceLoader)
  : WebpackCompilerHost C :=
  {| _syncHost := _syncHost h;
     _changedFiles := _changedFiles h;
     _basePath := _basePath h;
     _resourceLoader := Some resourceLoader |}.

Definition readResource h fileName : result (option string) :=
  match _resourceLoader h with
  | Some loader =>
      n ← normalize fileName;
      denormalizedFileName ← denormalizePath n;
      Some <$> get loader denormalizedFileName
  | None => readFile h fileName
  end.

End Adapter.

(** ** Reference implementation of the path functions

    Paths in the manner of the devkit's [path.ts]: separators are [/] and
    the backslash, a leading drive letter becomes the first fragment, [.]
    and empty fragments are dropped, [..] removes the fragment before it,
    and a path that climbs above the root is refused. *)
Module DevkitPath.

Definition NormalizedSep : string := "/".

Definition is_sep (c : ascii) : bool :=
  Ascii.eqb c "/" || Ascii.eqb c (ascii_of_nat 92).

Definition is_letter (c : ascii) : bool :=
  let n := nat_of_ascii c in
  (((65 <=? n) && (n <=? 90)) || ((97 <=? n) && (n <=? 122)))%nat.

(** [path.split(/[\/\\]/g)]. *)
Fixpoint split_sep (s : string) : list string :=
  match s with
  | EmptyString => [EmptyString]
  | String c s' =>
      if is_sep c then EmptyString :: split_sep s'
      else match split_sep s' with
           | fragment :: l => String c fragment :: l
           | [] => [String c EmptyString]
           end
  end.

(** [p.join('/')]. *)
Fixpoint join_sep (l : list string) : string :=
  match l with
  | [] => EmptyString
  | x :: l' =>
      match l' with
      | [] => x
      | _ :: _ => x +:+ String "/" (join_sep l')
      end
  end.

(** [InvalidPathException]. *)
Definition InvalidPathException (path : string) : string :=
  "Path " +:+ path +:+ " is invalid.".

(** A path that matches [/^[A-Z]:[\/\\]/i] is rewritten to start with the
    drive as a fragment. *)
Definition drive_to_fragment (path : string) : string :=
  match path with
  | String d (String colon (String s rest)) =>
      if is_letter d && Ascii.eqb colon ":" && is_sep s
      then String (ascii_of_nat 92) (String d (String (ascii_of_nat 92) rest))
      else path
  | _ => path
  end.

(** The [while] loop of [noCacheNormalize]. [stack] holds [p[1..i-1]], the
    fragments already kept, the last one first; [fragments] is [p[i..]]. *)
Fixpoint normalize_loop (original : string) (relative : bool)
    (stack fragments : list string) : result (list string) :=
  match fragments with
  | [] => Ok stack
  | fragment :: rest =>
      if String.eqb fragment "." then normalize_loop original relative stack rest
      else if String.eqb fragment ".." then
        match stack with
        | [] =>
            if relative then normalize_loop original relative [".."] rest
            else Throw (InvalidPathException original)
        | top :: below =>
            if negb (String.eqb top "..")
            then normalize_loop original relative below rest
            else normalize_loop original relative (".." :: stack) rest
        end
      else if String.eqb fragment "" then normalize_loop original relative stack rest
      else normalize_loop original relative (fragment :: stack) rest
  end.

Definition noCacheNormalize (path : string) : result Path :=
  if String.eqb path "" || String.eqb path "." then Ok ""
  else if String.eqb path "/" then Ok "/"
  else
    let original := path in
    let path := drive_to_fragment path in
    let p := split_sep path in
    let relative := negb (String.eqb (hd "" p) "") in
    (* [p[0]] is the empty first fragment, or the [.] put before a
       relative path; the loop starts at [p[1]]. *)
    let fragments := if relative then p else tl p in
    stack ← normalize_loop original relative [] fragments;
    match stack with
    | [] => Ok (if relative then "" else "/")
    | _ :: _ =>
        Ok (join_sep (if relative then rev stack else "" :: rev stack))
    end.

(** [normalize] is [noCacheNormalize] behind a cache. *)
Definition normalize (path : string) : result Path := noCacheNormalize path.

Definition isAbsolute (p : Path) : bool := startsWith p NormalizedSep.

(** [join(p1, other)]. *)
Definition join (p1 : Path) (other : string) : result Path :=
  normalize ((if String.eqb p1 "" then "" else p1 +:+ NormalizedSep) +:+ other).

(** [getSystemPath] on a POSIX host. *)
Definition asPosixPath (p : Path) : string := p.

(** *** Notions for the proofs about these functions *)

(** No separator occurs in [s]. *)
Fixpoint sep_free (s : string) : bool :=
  match s with
  | EmptyString => true
  | String c s' => negb (is_sep c) && sep_free s'
  end.

(** A fragment that the loop keeps on its stack. *)
Definition kept (x : string) : Prop := x <> "" /\ x <> ".".

(** A fragment that names an entry. *)
Definition is_name (x : string) : Prop := sep_free x = true /\ kept x /\ x <> "..".

(** One turn of the loop. *)
Definition loop_step (original : string) (relative : bool) (stack : list string)
    (fragment : string) : result (list string) :=
  if String.eqb fragment "." then Ok stack
  else if String.eqb fragment ".." then
    match stack with
    | [] => if relative then Ok [".."] else Throw (InvalidPathException original)
    | top :: below => if negb (String.eqb top "..") then Ok below else Ok (".." :: stack)
    end
  else if String.eqb fragment "" then Ok stack
  else Ok (fragment :: stack).

(** What [noCacheNormalize] returns for an absolute path once the loop
    has ended. *)
Definition finish_absolute (stack : list string) : Path :=
  match stack with
  | [] => "/"
  | _ :: _ => join_sep ("" :: rev stack)
  end.

End DevkitPath.

#[global] Instance devkit_path : PathOps := {|
  normalize := DevkitPath.normalize;
  isAbsolute := DevkitPath.isAbsolute;
  join := DevkitPath.join;
  getSystemPath := DevkitPath.asPosixPath;
|}.

(** ** Reference implementation of the hosts

    A backend in the manner of a disk ([Disk]: queries about a missing entry
    throw, as [fs.statSync] does) and a recording overlay above it ([Cord]),
    which keeps what was written in a memory cache and notes which paths it
    created and which it overwrote. *)
Module MemoryFs.

(** An entry: a file with its bytes and the further own properties of its
    stats object, or a directory. *)
Inductive Node : Type :=
  | FileNode (content : FileBuffer) (own : gmap string JsValue)
  | DirectoryNode.

Definition is_file (n : Node) : bool :=
  match n with FileNode _ _ => true | DirectoryNode => false end.

Definition node_stats (n : Node) : virtualFs.Stats :=
  match n with
  | FileNode content own =>
      {| virtualFs.st_isFile := true; virtualFs.st_isDirectory := false;
         virtualFs.size := Z.of_nat (length content);
         virtualFs.atime := 0; virtualFs.mtime := 0;
         virtualFs.ctime := 0; virtualFs.birthtime := 0;
         virtualFs.extra := own |}
  | DirectoryNode =>
      {| virtualFs.st_isFile := false; virtualFs.st_isDirectory := true;
         virtualFs.size := 0;
         virtualFs.atime := 0; virtualFs.mtime := 0;
         virtualFs.ctime := 0; virtualFs.birthtime := 0;
         virtualFs.extra := ∅ |}
  end.

Definition FileDoesNotExistException (p : Path) : string :=
  "Path " +:+ p +:+ " does not exist.".
Definition PathIsDirectoryException (p : Path) : string :=
  "Path " +:+ p +:+ " is a directory.".
Definition PathIsFileException (p : Path) : string :=
  "Path " +:+ p +:+ " is a file.".
Definition FileAlreadyExistException (p : Path) : string :=
  "Path " +:+ p +:+ " already exist.".

(** The name of [k] below the directory [p], when [k] is a child of it. *)
Definition child_name (p k : Path) : option string :=
  let dir := if String.eqb p "/" then "/" else p +:+ "/" in
  if String.prefix dir k then
    let name := String.substring (String.length dir) (String.length k - String.length dir) k in
    if String.eqb name "" then None
    else match DevkitPath.split_sep name with
         | [_] => Some name
         | _ => None
         end
  else None.

Definition children (nodes : gmap Path Node) (p : Path) : list string :=
  omap (child_name p) (map_to_list nodes).*1.

Record Disk : Type := { nodes : gmap Path Node }.

Definition disk_lookup (d : Disk) (p : Path) : result Node :=
  match nodes d !! p with
  | Some n => Ok n
  | None => Throw (FileDoesNotExistException p)
  end.

Definition disk_read (d : Disk) (p : Path) : result FileBuffer :=
  n ← disk_lookup d p;
  match n with
  | FileNode content _ => Ok content
  | DirectoryNode => Throw (PathIsDirectoryException p)
  end.

Record Cord : Type := {
  _cache : gmap Path Node;
  _filesToCreate : list Path;
  _filesToOverwrite : list Path;
  _back : Disk;
}.

(** The memory cache keys its entries by absolute paths. *)
Definition _toAbsolute (p : Path) : Path :=
  if DevkitPath.isAbsolute p then p else "/" +:+ p.

Definition cord_exists (c : Cord) (p : Path) : result bool :=
  match _cache c !! _toAbsolute p with
  | Some _ => Ok true
  | None => Ok (bool_decide (is_Some (nodes (_back c) !! p)))
  end.

Definition cord_isFile (c : Cord) (p : Path) : result bool :=
  match _cache c !! _toAbsolute p with
  | Some n => Ok (is_file n)
  | None => is_file <$> disk_lookup (_back c) p
  end.

Definition cord_isDirectory (c : Cord) (p : Path) : result bool :=
  match _cache c !! _toAbsolute p with
  | Some n => Ok (negb (is_file n))
  | None => (fun n => negb (is_file n)) <$> disk_lookup (_back c) p
  end.

Definition cache_read (c : Cord) (p : Path) : result FileBuffer :=
  match _cache c !! _toAbsolute p with
  | Some (FileNode content _) => Ok content
  | Some DirectoryNode => Throw (PathIsDirectoryException p)
  | None => Throw (FileDoesNotExistException p)
  end.

Definition cord_read (c : Cord) (p : Path) : result FileBuffer :=
  match _cache c !! _toAbsolute p with
  | Some _ => cache_read c p
  | None => disk_read (_back c) p
  end.

Definition cord_stat (c : Cord) (p : Path) : result (option virtualFs.Stats) :=
  match _cache c !! _toAbsolute p with
  | Some n => Ok (Some (node_stats n))
  | None => (fun n => Some (node_stats n)) <$> disk_lookup (_back c) p
  end.

Definition cord_list (c : Cord) (p : Path) : result (list string) :=
  _ ← disk_lookup (_back c) p;
  Ok (remove_dups (children (_cache c) (_toAbsolute p) ++ children (nodes (_back c)) p)).

(** The directories above [p]: for [/a/b/c], [/a] and [/a/b]. *)
Fixpoint prefixes (curr : Path) (fragments : list string) : list Path :=
  match fragments with
  | [] => []
  | fragment :: rest =>
      match rest with
      | [] => []
      | _ :: _ => let dir := curr +:+ "/" +:+ fragment in dir :: prefixes dir rest
      end
  end.

Definition ancestors (p : Path) : list Path :=
  prefixes "" (tl (DevkitPath.split_sep p)).

(** Writing a file makes the directories above it; a file in the way is
    an error. *)
Fixpoint mkdirs (cache : gmap Path Node) (dirs : list Path)
  : gmap Path Node * result unit :=
  match dirs with
  | [] => (cache, Ok ())
  | dir :: rest =>
      match cache !! dir with
      | Some (FileNode _ _) => (cache, Throw (PathIsFileException dir))
      | Some DirectoryNode => mkdirs cache rest
      | None => mkdirs (<[dir := DirectoryNode]> cache) rest
      end
  end.

Definition cache_write (c : Cord) (p : Path) (content : FileBuffer) : Cord * result unit :=
  let path := _toAbsolute p in
  match _cache c !! path with
  | Some DirectoryNode => (c, Throw (PathIsDirectoryException path))
  | _ =>
      let '(cache, made) := mkdirs (_cache c) (ancestors path) in
      match made with
      | Throw e =>
          ({| _cache := cache; _filesToCreate := _filesToCreate c;
              _filesToOverwrite := _filesToOverwrite c; _back := _back c |}, Throw e)
      | Ok _ =>
          ({| _cache := <[path := FileNode content ∅]> cache;
              _filesToCreate := _filesToCreate c;
              _filesToOverwrite := _filesToOverwrite c; _back := _back c |}, Ok ())
      end
  end.

Definition cord_create (c : Cord) (p : Path) (content : FileBuffer) : Cord * result unit :=
  match _cache c !! _toAbsolute p with
  | Some _ => (c, Throw (FileAlreadyExistException p))
  | None =>
      cache_write
        {| _cache := _cache c; _filesToCreate := Set_add p (_filesToCreate c);
           _filesToOverwrite := _filesToOverwrite c; _back := _back c |} p content
  end.

Definition cord_overwrite (c : Cord) (p : Path) (content : FileBuffer) : Cord * result unit :=
  match cord_isDirectory c p with
  | Throw e => (c, Throw e)
  | Ok true => (c, Throw (PathIsDirectoryException p))
  | Ok false =>
      cache_write
        {| _cache := _cache c; _filesToCreate := _filesToCreate c;
           _filesToOverwrite :=
             if bool_decide (p ∈ _filesToCreate c) then _filesToOverwrite c
             else Set_add p (_filesToOverwrite c);
           _back := _back c |} p content
  end.

(** No path is deleted or renamed through the compiler host, so a path
    that exists is overwritten and any other is created. *)
Definition cord_write (c : Cord) (p : Path) (content : FileBuffer) : Cord * result unit :=
  match cord_exists c p with
  | Throw e => (c, Throw e)
  | Ok true => cord_overwrite c p content
  | Ok false => cord_create c p content
  end.

Definition cord_records (c : Cord) : result (list virtualFs.CordHostRecord) :=
  creates ← map_result (fun p => virtualFs.CordHostCreate p <$> cache_read c p) (_filesToCreate c);
  overwrites ← map_result (fun p => virtualFs.CordHostOverwrite p <$> cache_read c p)
                 (_filesToOverwrite c);
  Ok (creates ++ overwrites).

Definition newCord (back : Disk) : Cord :=
  {| _cache := ∅; _filesToCreate := []; _filesToOverwrite := []; _back := back |}.

End MemoryFs.

#[global] Instance disk_readonly : virtualFs.ReadonlyHost MemoryFs.Disk := {|
  virtualFs.exists_ d p := Ok (bool_decide (is_Some (MemoryFs.nodes d !! p)));
  virtualFs.isFile d p := MemoryFs.is_file <$> MemoryFs.disk_lookup d p;
  virtualFs.isDirectory d p := (fun n => negb (MemoryFs.is_file n)) <$> MemoryFs.disk_lookup d p;
  virtualFs.read := MemoryFs.disk_read;
  virtualFs.stat d p := (fun n => Some (MemoryFs.node_stats n)) <$> MemoryFs.disk_lookup d p;
  virtualFs.list_ d p := _ ← MemoryFs.disk_lookup d p; Ok (MemoryFs.children (MemoryFs.nodes d) p);
|}.

#[global] Instance cord_readonly : virtualFs.ReadonlyHost MemoryFs.Cord := {|
  virtualFs.exists_ := MemoryFs.cord_exists;
  virtualFs.isFile := MemoryFs.cord_isFile;
  virtualFs.isDirectory := MemoryFs.cord_isDirectory;
  virtualFs.read := MemoryFs.cord_read;
  virtualFs.stat := MemoryFs.cord_stat;
  virtualFs.list_ := MemoryFs.cord_list;
|}.

#[global] Instance cord_host : virtualFs.Host MemoryFs.Cord := {|
  virtualFs.write := MemoryFs.cord_write;
|}.

#[global] Instance cord_cordhost : virtualFs.CordHost MemoryFs.Cord MemoryFs.Disk := {|
  virtualFs.newCordHost := MemoryFs.newCord;
  virtualFs.records := MemoryFs.cord_records;
  virtualFs.backend := MemoryFs._back;
|}.

(** Text as the bytes of its characters. *)
#[global] Instance byte_codec : virtualFs.Codec := {|
  virtualFs.stringToFileBuffer := String.list_byte_of_string;
  virtualFs.fileBufferToString := String.string_of_list_byte;
|}.

(** ** What the contract says, in terms of the interfaces *)

Section Contract.
Context {H : Type} `{!virtualFs.ReadonlyHost H}.

(** [p] exists in [host] and is a file. *)
Definition file_at (host : H) (p : Path) : Prop :=
  virtualFs.exists_ host p = Ok true /\ virtualFs.isFile host p = Ok true.

(** [p] does not exist in [host], or exists and is not a file. *)
Definition no_file_at (host : H) (p : Path) : Prop :=
  virtualFs.exists_ host p = Ok false \/
  (virtualFs.exists_ host p = Ok true /\ virtualFs.isFile host p = Ok false).

(** What a host promises of a write that did not throw. *)
Definition write_then_read `{!virtualFs.Host H} : Prop :=
  forall (host host' : H) (p : Path) (content : FileBuffer),
    virtualFs.write host p content = (host', Ok ()) ->
    file_at host' p /\ virtualFs.read host' p = Ok content.
End Contract.

(** What the adapter relies on from the path functions, for absolute
    paths: an absolute normal form is its own normal form; joining to an
    absolute path gives an absolute normal form; and joining a relative
    path or its normal form comes to the same. *)
Class PathLaws `{PathOps} : Prop := {
  normalize_absolute : forall (p : string) (n : Path),
    normalize p = Ok n -> isAbsolute n = true -> normalize n = Ok n;
  join_absolute : forall (b : Path) (x : string) (r : Path),
    isAbsolute b = true -> join b x = Ok r ->
    isAbsolute r = true /\ normalize r = Ok r;
  join_normalized : forall (b : Path) (p : string) (n r : Path),
    isAbsolute b = true -> normalize p = Ok n -> isAbsolute n = false ->
    (join b p = Ok r <-> join b n = Ok r);
}.

(** The paths of the [create] records, in the order of the records. *)
Definition created (all : list virtualFs.CordHostRecord) : list Path :=
  flat_map (fun r => match r with virtualFs.CordHostCreate p _ => [p] | _ => [] end) all.

(** The suffixes of the generated output. *)
Definition generated (p : Path) : bool :=
  endsWith p ".ngfactory.js" || endsWith p ".ngstyle.js".

(** ** The states a host goes through *)

Section Reachable.
Context `{PathOps} `{virtualFs.Codec}.
Context {C B : Type}.
Context `{!virtualFs.ReadonlyHost C, !virtualFs.Host C}.
Context `{!virtualFs.ReadonlyHost B, !virtualFs.CordHost C B}.

(** The states of [new WebpackCompilerHost(options, basePath, host)]: the
    one the constructor leaves, and those left by the methods that change
    a field. *)
Inductive reachable (basePath : string) (host : B) : WebpackCompilerHost C -> Prop :=
  | reach_constructor h :
      constructor basePath host = Ok h -> reachable basePath host h
  | reach_invalidate h fileName h' :
      reachable basePath host h -> invalidate h fileName = Ok h' ->
      reachable basePath host h'
  | reach_resetChangedFileTracker h :
      reachable basePath host h -> reachable basePath host (resetChangedFileTracker h)
  | reach_writeFile h fileName data bom onError h' reported :
      reachable basePath host h ->
      writeFile h fileName data bom onError = Ok (h', reported) ->
      reachable basePath host h'
  | reach_setResourceLoader h loader :
      reachable basePath host h -> reachable basePath host (setResourceLoader h loader).

End Reachable.

(** The backslash occurs in [s]. *)
Definition has_backslash (s : string) : Prop :=
  In (ascii_of_nat 92) (list_ascii_of_string s).

(** ** A project, a host on it, and some calls *)

Module Scenario.
Import MemoryFs.

(** A file of 1024 bytes whose stats object, like one of [fs.statSync],
    has a [blocks] property of its own: eight blocks of 512 bytes, what a
    file system that allocates 4096 bytes at a time reports. *)
Definition big_bin : Node :=
  FileNode (repeat Byte.x00 1024) {[ "blocks" := VNumber 8 ]}.

Definition main_ts : Node :=
  FileNode (String.list_byte_of_string "export {};") ∅.

(** A project on disk. *)
Definition disk : Disk :=
  {| nodes := {[ "/project" := DirectoryNode;
                 "/project/src" := DirectoryNode;
                 "/project/src/main.ts" := main_ts;
                 "/project/big.bin" := big_bin ]} |}.

(** [new WebpackCompilerHost(options, '/project', disk)]. *)
Definition host0 : WebpackCompilerHost Cord :=
  {| _syncHost := newCord disk; _changedFiles := [];
     _basePath := "/project"; _resourceLoader := None |}.

(** [new WebpackCompilerHost(options, 'project', disk)]: a relative base. *)
Definition host_relative : WebpackCompilerHost Cord :=
  {| _syncHost := newCord disk; _changedFiles := [];
     _basePath := "project"; _resourceLoader := None |}.

(** The host after [call], or [h] when the call throws. *)
Definition after {A : Type} (h : WebpackCompilerHost Cord)
    (call : result (WebpackCompilerHost Cord * A)) : WebpackCompilerHost Cord :=
  match call with
  | Ok (h', _) => h'
  | Throw _ => h
  end.

(** [writeFile('src/a.ts', 'export const x = 1;', false, report)]. *)
Definition host1 : WebpackCompilerHost Cord :=
  after host0 (writeFile host0 "src/a.ts" "export const x = 1;" false (Some id)).

(** Then the compiler emits a factory, a style module and a plain file. *)
Definition host2 : WebpackCompilerHost Cord :=
  let h := after host1 (writeFile host1 "src/app.component.ngfactory.js" "f" false None) in
  let h := after h (writeFile h "src/app.component.css.shim.ngstyle.js" "s" false None) in
  after h (writeFile h "src/app.component.js" "c" false None).

(** [writeFile('src', 'x', false)], without an error callback, where
    [src] is a directory. *)
Definition host_src : WebpackCompilerHost Cord :=
  after host0 (writeFile host0 "src" "x" false None).

(** The draws of the process: 0, 1/4, 1/2, 3/4, 0, ... *)
Definition rng0 : Rng :=
  {| tape := fun i => (Z.of_nat i mod 4 * 2 ^ 51)%Z; pos := 0 |}.

Definition linux : Process := (load_module "linux" rng0).1.
Definition rng1 : Rng := (load_module "linux" rng0).2.

Definition win32 : Process := (load_module "win32" rng0).1.

(** The object and the generator that [stat] returns, when it returns an
    object. *)
Definition stat_of (h : WebpackCompilerHost Cord) (path : string) (g : Rng)
  : gmap string JsValue * Rng :=
  match stat linux h path g with
  | Ok (Some o, g') => (o, g')
  | _ => (∅, g)
  end.

Definition first_stat : gmap string JsValue * Rng := stat_of host0 "src/main.ts" rng1.
Definition second_stat : gmap string JsValue * Rng :=
  stat_of host0 "src/main.ts" first_stat.2.

Definition big_stat : gmap string JsValue * Rng := stat_of host0 "big.bin" rng1.

Definition records2 : list virtualFs.CordHostRecord :=
  match virtualFs.records (_syncHost host2) with
  | Ok all => all
  | Throw _ => []
  end.

(** [invalidate('src/main.ts')] after the write of [host1]. *)
Definition host_changed : WebpackCompilerHost Cord :=
  match invalidate host1 "src/main.ts" with
  | Ok h => h
  | Throw _ => host1
  end.

(** A loader that answers with the name it is asked for. *)
Definition echo_loader : WebpackResourceLoader :=
  {| get := fun fileName => Ok ("resource " +:+ fileName) |}.

End Scenario.

(** ** Lemmas on calls that may throw *)

Lemma Ok_inj {A : Type} (a b : A) : Ok a = Ok b -> a = b.
Proof. congruence. Qed.

Lemma bind_Ok {A B : Type} (m : result A) (f : A -> result B) (b : B) :
  m ≫= f = Ok b <-> exists a, m = Ok a /\ f a = Ok b.
Proof.
  destruct m as [a|e]; simpl; split.
  - intros Hf. exists a. split; [reflexivity | exact Hf].
  - intros (a' & Ha & Hf). injection Ha as ->. exact Hf.
  - discriminate.
  - intros (a' & Ha & _). discriminate.
Qed.

Lemma and_then_true (a b : result bool) :
  and_then a b = Ok true <-> a = Ok true /\ b = Ok true.
Proof.
  unfold and_then. destruct a as [[|]|e]; simpl; intuition congruence.
Qed.

Lemma and_then_false (a b : result bool) :
  and_then a b = Ok false <-> a = Ok false \/ (a = Ok true /\ b = Ok false).
Proof.
  unfold and_then. destruct a as [[|]|e]; simpl; intuition congruence.
Qed.

Lemma map_result_Forall2 {A B : Type} (f : A -> result B) (l : list A) (out : list B) :
  map_result f l = Ok out <-> Forall2 (fun x y => f x = Ok y) l out.
Proof.
  revert out. induction l as [|x l IH]; intros out; simpl.
  - split.
    + intros Hout. injection Hout as <-. constructor.
    + intros Hall. inversion Hall. reflexivity.
  - rewrite bind_Ok. split.
    + intros (y & Hy & Hrest). apply bind_Ok in Hrest as (ys & Hys & Hout).
      injection Hout as <-. constructor; [exact Hy | apply IH, Hys].
    + intros Hall. inversion Hall as [|x' y l' ys Hy Hys]; subst.
      exists y. split; [exact Hy |]. apply bind_Ok. exists ys.
      split; [apply IH, Hys | reflexivity].
Qed.

Lemma map_result_total {A B : Type} (f : A -> result B) (l : list A) :
  Forall (fun x => exists y, f x = Ok y) l -> exists out, map_result f l = Ok out.
Proof.
  induction 1 as [|x l [y Hy] _ [ys Hys]]; simpl.
  - exists []. reflexivity.
  - exists (y :: ys). rewrite Hy; simpl. rewrite Hys; reflexivity.
Qed.

Lemma elem_of_Set_add (x : string) (s : list string) : x ∈ Set_add x s.
Proof.
  unfold Set_add. destruct (decide (x ∈ s)) as [Hin|Hout].
  - exact Hin.
  - apply elem_of_app. right. apply list_elem_of_singleton. reflexivity.
Qed.

Lemma Math_ceil_div_least (n d : Z) :
  (0 < d)%Z -> (d * (Math_ceil_div n d - 1) < n <= d * Math_ceil_div n d)%Z.
Proof.
  intros Hd. unfold Math_ceil_div.
  pose proof (Z.div_mod (- n) d) as Hdm.
  pose proof (Z.mod_pos_bound (- n) d Hd) as Hb.
  nia.
Qed.

(** The create records, filtered by kind and mapped to their path, are the
    created paths. *)
Lemma create_paths (all : list virtualFs.CordHostRecord) :
  omap virtualFs.record_path
    (List.filter (fun record => String.eqb (virtualFs.kind record) "create") all)
  = created all.
Proof.
  induction all as [|r all IH]; [reflexivity |].
  destruct r; simpl; rewrite <- IH; reflexivity.
Qed.

Lemma elem_of_created (q : Path) (all : list virtualFs.CordHostRecord) :
  q ∈ created all <-> exists content, virtualFs.CordHostCreate q content ∈ all.
Proof.
  induction all as [|r all IH]; simpl.
  - split; [intros Hin; inversion Hin | intros [c Hin]; inversion Hin].
  - unfold created in *. simpl. rewrite elem_of_app, IH. split.
    + intros [Hin | [c Hin]].
      * destruct r; try (inversion Hin; fail).
        apply list_elem_of_singleton in Hin as ->. eexists. left.
      * exists c. right. exact Hin.
    + intros [c Hin]. apply elem_of_cons in Hin as [<- | Hin].
      * left. simpl. left.
      * right. exists c. exact Hin.
Qed.


(** ** The reference path functions keep the laws *)

Module DevkitPathFacts.
Import DevkitPath.

Lemma loop_cons o rel st x rest :
  normalize_loop o rel st (x :: rest)
  = loop_step o rel st x ≫= fun st' => normalize_loop o rel st' rest.
Proof.
  unfold loop_step; simpl.
  destruct (String.eqb x "."); [reflexivity |].
  destruct (String.eqb x "..").
  - destruct st as [|top below]; [destruct rel; reflexivity |].
    destruct (negb (String.eqb top "..")); reflexivity.
  - destruct (String.eqb x ""); reflexivity.
Qed.

Lemma loop_app o rel st l1 l2 :
  normalize_loop o rel st (l1 ++ l2)
  = normalize_loop o rel st l1 ≫= fun st' => normalize_loop o rel st' l2.
Proof.
  revert st. induction l1 as [|x l1 IH]; intros st; [reflexivity |].
  rewrite <- app_comm_cons, !loop_cons.
  destruct (loop_step o rel st x) as [st'|e]; simpl; [apply IH | reflexivity].
Qed.

Lemma loop_step_name o rel st x :
  kept x -> x <> ".." -> loop_step o rel st x = Ok (x :: st).
Proof.
  intros [Hne Hdot] Hdd. unfold loop_step.
  destruct (String.eqb_spec x "."); [contradiction |].
  destruct (String.eqb_spec x ".."); [contradiction |].
  destruct (String.eqb_spec x ""); [contradiction | reflexivity].
Qed.

Lemma loop_names o rel st l :
  Forall is_name l -> normalize_loop o rel st l = Ok (rev l ++ st).
Proof.
  intros Hl. revert st. induction Hl as [|x l (_ & Hk & Hdd) _ IH]; intros st.
  - reflexivity.
  - rewrite loop_cons, (loop_step_name _ _ _ _ Hk Hdd); simpl.
    rewrite IH, <- app_assoc. reflexivity.
Qed.

(** The exception apart, the loop does not depend on the path it reports. *)
Lemma loop_step_original o1 o2 rel st x st' :
  loop_step o1 rel st x = Ok st' -> loop_step o2 rel st x = Ok st'.
Proof.
  unfold loop_step.
  destruct (String.eqb x "."); [auto |].
  destruct (String.eqb x ".."); [| auto].
  destruct st as [|top below]; [| auto].
  destruct rel; [auto | discriminate].
Qed.

Lemma loop_original o1 o2 rel st l st' :
  normalize_loop o1 rel st l = Ok st' -> normalize_loop o2 rel st l = Ok st'.
Proof.
  revert st. induction l as [|x l IH]; intros st; [auto |].
  rewrite !loop_cons. intros Hl. apply bind_Ok in Hl as (st1 & Hstep & Hl).
  rewrite (loop_step_original _ o2 _ _ _ _ Hstep); simpl. apply IH, Hl.
Qed.

(** *** Splitting and joining *)

Lemma split_sep_cons (s : string) : exists x l, split_sep s = x :: l.
Proof.
  induction s as [|c s (x & l & IH)]; simpl; [eauto |].
  destruct (is_sep c); [eauto |]. rewrite IH. eauto.
Qed.

Lemma split_sep_sep_free (s : string) : Forall (fun x => sep_free x = true) (split_sep s).
Proof.
  induction s as [|c s IH]; simpl.
  - repeat constructor.
  - destruct (is_sep c) eqn:Hc; [constructor; [reflexivity | exact IH] |].
    destruct (split_sep s) as [|x l]; [repeat constructor; simpl; rewrite Hc; reflexivity |].
    inversion IH as [|? ? Hx Hl]; subst.
    constructor; [simpl; rewrite Hc, Hx; reflexivity | exact Hl].
Qed.

Lemma split_sep_app (x y : string) (c : ascii) :
  is_sep c = true ->
  split_sep (x +:+ String c y) = split_sep x ++ split_sep y.
Proof.
  intros Hc. induction x as [|a x IH]; simpl.
  - rewrite Hc. reflexivity.
  - rewrite IH. destruct (is_sep a); [reflexivity |].
    destruct (split_sep_cons x) as (x0 & l & ->). reflexivity.
Qed.

Lemma split_sep_free (x : string) : sep_free x = true -> split_sep x = [x].
Proof.
  induction x as [|a x IH]; simpl; [reflexivity |].
  intros Hx. apply andb_true_iff in Hx as [Ha Hx].
  apply negb_true_iff in Ha. rewrite Ha, (IH Hx). reflexivity.
Qed.

Lemma split_join (l : list string) :
  l <> [] -> Forall (fun x => sep_free x = true) l -> split_sep (join_sep l) = l.
Proof.
  intros Hne Hl. induction Hl as [|x l Hx Hl IH]; [contradiction |].
  destruct l as [|y l].
  - simpl. apply split_sep_free, Hx.
  - change (join_sep (x :: y :: l)) with (x +:+ String "/" (join_sep (y :: l))).
    rewrite split_sep_app by reflexivity.
    rewrite (split_sep_free x Hx), IH by discriminate. reflexivity.
Qed.

(** *** The shape of a normal form *)

Lemma loop_step_names o st x st' :
  sep_free x = true -> Forall is_name st ->
  loop_step o false st x = Ok st' -> Forall is_name st'.
Proof.
  intros Hx Hst. unfold loop_step.
  destruct (String.eqb_spec x "."); [intros [= <-]; exact Hst |].
  destruct (String.eqb_spec x "..").
  - destruct st as [|top below]; [discriminate |].
    inversion Hst as [|? ? (_ & _ & Htop) Hbelow]; subst.
    destruct (String.eqb_spec top ".."); [contradiction |].
    intros [= <-]. exact Hbelow.
  - destruct (String.eqb_spec x ""); intros [= <-]; [exact Hst |].
    constructor; [| exact Hst]. repeat split; assumption.
Qed.

Lemma loop_names_kept o st l st' :
  Forall (fun x => sep_free x = true) l -> Forall is_name st ->
  normalize_loop o false st l = Ok st' -> Forall is_name st'.
Proof.
  intros Hl. revert st. induction Hl as [|x l Hx _ IH]; intros st Hst.
  - intros [= <-]. exact Hst.
  - rewrite loop_cons. intros Hloop. apply bind_Ok in Hloop as (st1 & Hstep & Hloop).
    exact (IH _ (loop_step_names _ _ _ _ Hx Hst Hstep) Hloop).
Qed.

Lemma loop_step_kept o rel st x st' :
  sep_free x = true -> Forall (fun y => sep_free y = true /\ kept y) st ->
  loop_step o rel st x = Ok st' -> Forall (fun y => sep_free y = true /\ kept y) st'.
Proof.
  intros Hx Hst. unfold loop_step.
  destruct (String.eqb_spec x "."); [intros [= <-]; exact Hst |].
  destruct (String.eqb_spec x "..").
  - destruct st as [|top below].
    + destruct rel; [| discriminate]. intros [= <-].
      repeat constructor; discriminate.
    + destruct (negb (String.eqb top "..")); intros [= <-].
      * inversion Hst; assumption.
      * constructor; [| exact Hst]. repeat split; discriminate.
  - destruct (String.eqb_spec x ""); intros [= <-]; [exact Hst |].
    constructor; [| exact Hst]. repeat split; assumption.
Qed.

Lemma loop_kept o rel st l st' :
  Forall (fun x => sep_free x = true) l ->
  Forall (fun y => sep_free y = true /\ kept y) st ->
  normalize_loop o rel st l = Ok st' ->
  Forall (fun y => sep_free y = true /\ kept y) st'.
Proof.
  intros Hl. revert st. induction Hl as [|x l Hx _ IH]; intros st Hst.
  - intros [= <-]. exact Hst.
  - rewrite loop_cons. intros Hloop. apply bind_Ok in Hloop as (st1 & Hstep & Hloop).
    exact (IH _ (loop_step_kept _ _ _ _ _ Hx Hst Hstep) Hloop).
Qed.

Lemma join_sep_cons (x : string) (l : list string) :
  l <> [] -> join_sep (x :: l) = x +:+ String "/" (join_sep l).
Proof. destruct l; [contradiction | reflexivity]. Qed.

Lemma finish_absolute_join (stack : list string) :
  finish_absolute stack = String "/" (join_sep (rev stack)).
Proof.
  destruct stack as [|x stack]; [reflexivity |].
  unfold finish_absolute. rewrite join_sep_cons; [reflexivity |].
  simpl. destruct (rev stack); discriminate.
Qed.

Lemma isAbsolute_String (c : ascii) (s : string) :
  isAbsolute (String c s) = Ascii.eqb c "/".
Proof.
  unfold isAbsolute, startsWith, NormalizedSep.
  change (String.prefix "/" (String c s))
    with (if ascii_dec "/" c then String.prefix "" s else false).
  destruct (ascii_dec "/" c) as [<-|Hc].
  - destruct s; reflexivity.
  - symmetry. apply Ascii.eqb_neq. congruence.
Qed.

(** A first fragment that is kept does not start with the separator. *)
Lemma join_sep_relative (x : string) (l : list string) :
  sep_free x = true -> x <> "" -> isAbsolute (join_sep (x :: l)) = false.
Proof.
  intros Hx Hne. destruct x as [|c x]; [contradiction |].
  simpl in Hx. apply andb_true_iff in Hx as [Hc _].
  unfold is_sep in Hc. apply negb_true_iff, orb_false_iff in Hc as [Hc _].
  destruct l; [exact (eq_trans (isAbsolute_String c x) Hc) |].
  rewrite join_sep_cons by discriminate.
  exact (eq_trans (isAbsolute_String c _) Hc).
Qed.

(** The general case of [noCacheNormalize] on a path that starts with the
    separator. *)
Lemma normalize_rooted (rest : string) :
  rest <> "" ->
  normalize (String "/" rest)
  = finish_absolute <$> normalize_loop (String "/" rest) false [] (split_sep rest).
Proof.
  intros Hrest. unfold normalize, noCacheNormalize.
  destruct rest as [|c rest]; [contradiction |].
  assert (Hdrive : drive_to_fragment (String "/" (String c rest)) = String "/" (String c rest)).
  { destruct rest; reflexivity. }
  change (String.eqb (String "/" (String c rest)) "" || String.eqb (String "/" (String c rest)) ".")
    with false.
  change (String.eqb (String "/" (String c rest)) "/") with false.
  cbv zeta. rewrite Hdrive.
  change (split_sep (String "/" (String c rest))) with ("" :: split_sep (String c rest)).
  simpl hd. simpl tl. change (negb (String.eqb "" "")) with false. cbv iota.
  destruct (normalize_loop _ false [] _) as [stack|e]; simpl; [| reflexivity].
  destruct stack; reflexivity.
Qed.

(** An absolute normal form: the separator before each of its names. *)
Lemma normalize_names (names : list string) :
  Forall is_name names ->
  normalize (String "/" (join_sep names)) = Ok (String "/" (join_sep names)).
Proof.
  intros Hnames. destruct names as [|x names]; [reflexivity |].
  assert (Hne : join_sep (x :: names) <> "").
  { inversion Hnames as [|? ? (_ & [Hx _] & _) _]; subst.
    destruct x; [contradiction |]. destruct names; discriminate. }
  rewrite normalize_rooted by exact Hne.
  rewrite split_join; [| discriminate |].
  - rewrite loop_names by exact Hnames. rewrite app_nil_r.
    unfold fmap, result_fmap.
    rewrite finish_absolute_join, rev_involutive. reflexivity.
  - eapply Forall_impl; [exact Hnames |]. intros y Hy. apply Hy.
Qed.

Lemma normalize_absolute_names (p : string) (n : Path) :
  normalize p = Ok n -> isAbsolute n = true ->
  exists names, Forall is_name names /\ n = String "/" (join_sep names).
Proof.
  unfold normalize, noCacheNormalize.
  destruct (String.eqb p "" || String.eqb p "."); [intros [= <-]; discriminate |].
  destruct (String.eqb p "/"); [intros [= <-] _; exists []; split; [constructor | reflexivity] |].
  cbv zeta. intros Hn Habs. apply bind_Ok in Hn as (stack & Hloop & Hn).
  pose proof (split_sep_sep_free (drive_to_fragment p)) as Hfree.
  destruct (split_sep_cons (drive_to_fragment p)) as (x & l & Hsplit).
  rewrite Hsplit in *. cbn [hd tl] in Hloop, Hn.
  inversion Hfree as [|? ? Hx Hl]; subst.
  destruct (String.eqb_spec x "") as [->|Hx0]; cbn [negb] in Hloop, Hn.
  - exists (rev stack). split.
    + apply Forall_rev. exact (loop_names_kept _ _ _ _ Hl (Forall_nil_2 _) Hloop).
    + rewrite <- finish_absolute_join.
      destruct stack; apply Ok_inj in Hn; subst n; reflexivity.
  - exfalso.
    pose proof (loop_kept _ _ _ _ _ Hfree (Forall_nil_2 _) Hloop) as Hkept.
    destruct stack as [|y stack]; apply Ok_inj in Hn; subst n; [discriminate |].
    apply Forall_rev in Hkept.
    destruct (rev (y :: stack)) as [|z zs] eqn:Hrev.
    { simpl in Hrev. destruct (rev stack); discriminate. }
    inversion Hkept as [|? ? [Hz [Hz0 _]] _]; subst.
    rewrite (join_sep_relative z zs Hz Hz0) in Habs. discriminate.
Qed.

(** *** A relative path and its normal form, below an absolute path *)

Lemma loop_snoc o rel st l x :
  normalize_loop o rel st (l ++ [x])
  = normalize_loop o rel st l ≫= fun st' => loop_step o rel st' x.
Proof.
  rewrite loop_app. destruct (normalize_loop o rel st l) as [st'|e]; [| reflexivity].
  change (normalize_loop o rel st' [x] = loop_step o rel st' x).
  rewrite loop_cons. destruct (loop_step o rel st' x); reflexivity.
Qed.

(** Once [..] is on the stack of a relative path, it and what is below it
    stay. *)
Lemma loop_step_bottom o pfx R0 x st' :
  loop_step o true (pfx ++ ".." :: R0) x = Ok st' ->
  exists pfx', st' = pfx' ++ ".." :: R0.
Proof.
  unfold loop_step.
  destruct (String.eqb x "."); [intros [= <-]; eauto |].
  destruct (String.eqb x "..").
  - destruct pfx as [|t pfx]; simpl.
    + intros [= <-]. exists [".."]. reflexivity.
    + destruct (negb (String.eqb t "..")); intros [= <-]; [eauto |].
      exists (".." :: t :: pfx). reflexivity.
  - destruct (String.eqb x ""); intros [= <-]; [eauto |].
    exists (x :: pfx). reflexivity.
Qed.

Lemma loop_bottom o pfx R0 l R :
  normalize_loop o true (pfx ++ ".." :: R0) l = Ok R ->
  exists pfx', R = pfx' ++ ".." :: R0.
Proof.
  revert pfx. induction l as [|x l IH]; intros pfx.
  - intros [= <-]. eauto.
  - rewrite loop_cons. intros Hl. apply bind_Ok in Hl as (st1 & Hstep & Hl).
    apply loop_step_bottom in Hstep as [pfx1 ->]. exact (IH _ Hl).
Qed.

(** Below an absolute stack, the fragments of a relative path do what the
    fragments that its own loop keeps do. *)
Lemma loop_relative_below o l :
  forall R0 S S0 R,
    Forall kept R0 ->
    normalize_loop o false S (rev R0) = Ok S0 ->
    normalize_loop o true R0 l = Ok R ->
    forall S', normalize_loop o false S0 l = Ok S' <->
               normalize_loop o false S (rev R) = Ok S'.
Proof.
  induction l as [|x l IH]; intros R0 S S0 R Hkept HS0 HR S'.
  - apply Ok_inj in HR. subst R. rewrite HS0. reflexivity.
  - rewrite loop_cons in HR. apply bind_Ok in HR as (R1 & Hrel & HR).
    rewrite loop_cons.
    destruct (String.eqb_spec x ".") as [->|Hdot].
    { apply Ok_inj in Hrel. subst R1. exact (IH _ _ _ _ Hkept HS0 HR S'). }
    destruct (String.eqb_spec x "") as [->|Hempty].
    { apply Ok_inj in Hrel. subst R1. exact (IH _ _ _ _ Hkept HS0 HR S'). }
    destruct (String.eqb_spec x "..") as [->|Hdd].
    + assert (Hpush : R1 = ".." :: R0 ->
                (loop_step o false S0 ".." ≫= fun st' => normalize_loop o false st' l) = Ok S' <->
                normalize_loop o false S (rev R) = Ok S').
      { intros ->.
        assert (Hprefix : normalize_loop o false S (rev (".." :: R0)) = loop_step o false S0 "..").
        { simpl rev. rewrite loop_snoc, HS0. reflexivity. }
        destruct (loop_step o false S0 "..") as [S1|e] eqn:Habs.
        - apply (IH (".." :: R0) S S1 R); [| exact Hprefix | exact HR].
          constructor; [split; discriminate | exact Hkept].
        - destruct (loop_bottom o [] R0 l R HR) as [pfx ->].
          rewrite rev_app_distr, loop_app, Hprefix. simpl. split; discriminate. }
      destruct R0 as [|t R0b].
      * apply Hpush. apply Ok_inj in Hrel. auto.
      * unfold loop_step in Hrel. simpl in Hrel.
        destruct (String.eqb_spec t "..") as [->|Ht]; simpl in Hrel; apply Ok_inj in Hrel.
        -- apply Hpush. auto.
        -- subst R1. inversion Hkept as [|? ? Hkt Hkb]; subst.
           simpl rev in HS0. rewrite loop_snoc in HS0.
           apply bind_Ok in HS0 as (S0b & HS0b & Hstep).
           rewrite (loop_step_name _ _ _ _ Hkt Ht) in Hstep. apply Ok_inj in Hstep. subst S0.
           assert (Hpop : loop_step o false (t :: S0b) ".." = Ok S0b).
           { unfold loop_step; simpl. destruct (String.eqb_spec t ".."); [contradiction | reflexivity]. }
           rewrite Hpop. simpl. exact (IH _ _ _ _ Hkb HS0b HR S').
    + assert (Hk : kept x) by (split; assumption).
      rewrite (loop_step_name _ _ _ _ Hk Hdd) in Hrel. apply Ok_inj in Hrel. subst R1.
      rewrite (loop_step_name _ _ _ _ Hk Hdd). simpl.
      apply (IH (x :: R0) S (x :: S0) R); [constructor; assumption | | exact HR].
      simpl rev. rewrite loop_snoc, HS0. simpl. apply loop_step_name; assumption.
Qed.

Lemma append_String (x y : string) (c : ascii) :
  (x +:+ String c "") +:+ y = x +:+ String c y.
Proof.
  induction x as [|a x IH]; [reflexivity |].
  change (String a ((x +:+ String c "") +:+ y) = String a (x +:+ String c y)).
  f_equal. exact IH.
Qed.

Lemma append_not_empty (x y : string) (c : ascii) : x +:+ String c y <> "".
Proof. destruct x; discriminate. Qed.

Lemma absolute_String (b : Path) :
  isAbsolute b = true -> exists b', b = String "/" b'.
Proof.
  destruct b as [|c b']; [discriminate |].
  rewrite isAbsolute_String. intros Hc. apply Ascii.eqb_eq in Hc as ->. eauto.
Qed.

(** [join] below an absolute path: the loop runs over the fragments of
    the path, then over those of what is joined to it. *)
Lemma join_rooted (b' : string) (x : string) :
  join (String "/" b') x
  = finish_absolute <$>
      (normalize_loop (String "/" (b' +:+ String "/" x)) false [] (split_sep b')
         ≫= fun st => normalize_loop (String "/" (b' +:+ String "/" x)) false st (split_sep x)).
Proof.
  unfold join, NormalizedSep.
  change (String.eqb (String "/" b') "") with false. cbv iota.
  change ((String "/" b' +:+ "/") +:+ x) with (String "/" ((b' +:+ "/") +:+ x)).
  rewrite append_String, normalize_rooted by apply append_not_empty.
  rewrite split_sep_app by reflexivity. rewrite loop_app. reflexivity.
Qed.

Lemma join_rooted_Ok (b' : string) (x : string) (r : Path) :
  join (String "/" b') x = Ok r <->
  exists o S0 S', normalize_loop o false [] (split_sep b') = Ok S0 /\
                  normalize_loop o false S0 (split_sep x) = Ok S' /\
                  r = finish_absolute S'.
Proof.
  rewrite join_rooted. split.
  - intros Hj. destruct (normalize_loop _ false [] (split_sep b')) as [S0|e] eqn:H0;
      [| discriminate]. simpl in Hj.
    destruct (normalize_loop _ false S0 (split_sep x)) as [S'|e] eqn:H1; [| discriminate].
    apply Ok_inj in Hj. eauto 8.
  - intros (o & S0 & S' & H0 & H1 & ->).
    rewrite (loop_original o _ _ _ _ _ H0). simpl.
    rewrite (loop_original o _ _ _ _ _ H1). reflexivity.
Qed.

Theorem devkit_normalize_absolute (p : string) (n : Path) :
  normalize p = Ok n -> isAbsolute n = true -> normalize n = Ok n.
Proof.
  intros Hn Habs.
  destruct (normalize_absolute_names p n Hn Habs) as (names & Hnames & ->).
  apply normalize_names, Hnames.
Qed.

Theorem devkit_join_absolute (b : Path) (x : string) (r : Path) :
  isAbsolute b = true -> join b x = Ok r ->
  isAbsolute r = true /\ normalize r = Ok r.
Proof.
  intros Hb Hj. apply absolute_String in Hb as [b' ->].
  apply join_rooted_Ok in Hj as (o & S0 & S' & H0 & H1 & ->).
  rewrite finish_absolute_join. split; [apply isAbsolute_String |].
  apply normalize_names, Forall_rev.
  apply (loop_names_kept _ _ _ _ (split_sep_sep_free x)) in H1; [exact H1 |].
  exact (loop_names_kept _ _ _ _ (split_sep_sep_free b') (Forall_nil_2 _) H0).
Qed.

Lemma drive_to_fragment_cases (p : string) :
  drive_to_fragment p = p \/
  exists rest, drive_to_fragment p = String (ascii_of_nat 92) rest.
Proof.
  unfold drive_to_fragment.
  destruct p as [|d [|colon [|s rest]]]; try (left; reflexivity).
  destruct (is_letter d && Ascii.eqb colon ":" && is_sep s); [right; eauto | left; reflexivity].
Qed.

(** The fragments of a relative path and those of its normal form do the
    same below any absolute stack. *)
Lemma relative_fragments (p : string) (n : Path) (o : string) (S0 S' : list string) :
  normalize p = Ok n -> isAbsolute n = false ->
  normalize_loop o false S0 (split_sep p) = Ok S' <->
  normalize_loop o false S0 (split_sep n) = Ok S'.
Proof.
  unfold normalize, noCacheNormalize.
  destruct (String.eqb_spec p "") as [->|Hp0]; [intros Hn _; apply Ok_inj in Hn; subst n; reflexivity |].
  destruct (String.eqb_spec p ".") as [->|Hp1]; [intros Hn _; apply Ok_inj in Hn; subst n; reflexivity |].
  cbn [orb].
  destruct (String.eqb_spec p "/") as [->|Hp2]; [intros Hn; apply Ok_inj in Hn; subst n; discriminate |].
  cbv zeta. intros Hn Hrel. apply bind_Ok in Hn as (R & HR & Hn).
  destruct (split_sep_cons (drive_to_fragment p)) as (x & l & Hsplit).
  rewrite Hsplit in HR, Hn. cbn [hd tl] in HR, Hn.
  destruct (String.eqb_spec x "") as [->|Hx]; cbn [negb] in HR, Hn.
  { exfalso. assert (Hfin : n = finish_absolute R)
      by (destruct R; apply Ok_inj in Hn; subst n; reflexivity).
    rewrite Hfin, finish_absolute_join, isAbsolute_String in Hrel. discriminate. }
  assert (Hdrive : drive_to_fragment p = p).
  { destruct (drive_to_fragment_cases p) as [Hd | [rest Hd]]; [exact Hd |].
    rewrite Hd in Hsplit. simpl in Hsplit. congruence. }
  rewrite Hdrive in Hsplit. rewrite Hsplit.
  pose proof (loop_relative_below o (x :: l) [] S0 S0 R (Forall_nil_2 _) eq_refl
                (loop_original _ o _ _ _ _ HR) S') as Hsim.
  rewrite Hsim.
  destruct R as [|y R]; apply Ok_inj in Hn; subst n; [reflexivity |].
  rewrite split_join; [reflexivity | simpl; destruct (rev R); discriminate |].
  pose proof (split_sep_sep_free p) as Hfree. rewrite Hsplit in Hfree.
  apply Forall_rev.
  eapply Forall_impl; [exact (loop_kept _ _ _ _ _ Hfree (Forall_nil_2 _) HR) |].
  intros z Hz. apply Hz.
Qed.

Theorem devkit_join_normalized (b : Path) (p : string) (n r : Path) :
  isAbsolute b = true -> normalize p = Ok n -> isAbsolute n = false ->
  (join b p = Ok r <-> join b n = Ok r).
Proof.
  intros Hb Hn Hrel. apply absolute_String in Hb as [b' ->].
  rewrite !join_rooted_Ok.
  split; intros (o & S0 & S' & H0 & H1 & ->); exists o, S0, S';
    (split; [exact H0 |]); (split; [| reflexivity]);
    apply (relative_fragments p n o S0 S' Hn Hrel); exact H1.
Qed.

End DevkitPathFacts.

#[global] Instance devkit_path_laws : PathLaws (H := devkit_path).
Proof.
  split.
  - exact DevkitPathFacts.devkit_normalize_absolute.
  - exact DevkitPathFacts.devkit_join_absolute.
  - exact DevkitPathFacts.devkit_join_normalized.
Qed.




(** ** The reference overlay keeps its promise *)

Module MemoryFsFacts.
Import MemoryFs.

Lemma cache_write_Ok (c c' : Cord) (p : Path) (content : FileBuffer) :
  cache_write c p content = (c', Ok ()) ->
  _cache c' !! _toAbsolute p = Some (FileNode content ∅).
Proof.
  unfold cache_write.
  destruct (mkdirs (_cache c) (ancestors (_toAbsolute p))) as [cache [[]|e]] eqn:Hmk.
  - destruct (_cache c !! _toAbsolute p) as [[? ?|]|]; intros [= <-]; simpl;
      apply lookup_insert_eq.
  - destruct (_cache c !! _toAbsolute p) as [[? ?|]|]; discriminate.
Qed.

Lemma cord_file_at (c : Cord) (p : Path) (content : FileBuffer) :
  _cache c !! _toAbsolute p = Some (FileNode content ∅) ->
  file_at c p /\ virtualFs.read c p = Ok content.
Proof.
  intros Hc. unfold file_at; simpl.
  unfold cord_exists, cord_isFile, cord_read, cache_read. rewrite Hc. auto.
Qed.

(** The overlay keeps its promise about writes. *)
Theorem cord_write_then_read : write_then_read (H := Cord).
Proof.
  intros c c' p content Hw. simpl in Hw. unfold cord_write in Hw.
  apply (cord_file_at c' p content).
  destruct (cord_exists c p) as [[|]|e]; [| | discriminate].
  - unfold cord_overwrite in Hw.
    destruct (cord_isDirectory c p) as [[|]|e]; [discriminate | | discriminate].
    exact (cache_write_Ok _ _ _ _ Hw).
  - unfold cord_create in Hw.
    destruct (_cache c !! _toAbsolute p); [discriminate |].
    exact (cache_write_Ok _ _ _ _ Hw).
Qed.

End MemoryFsFacts.

(** ** Properties of the adapter, for any implementation of the interfaces *)

Section AdapterProperties.
Context `{PathOps} `{virtualFs.Codec}.
Context {C B : Type}.
Context `{!virtualFs.ReadonlyHost C, !virtualFs.Host C}.
Context `{!virtualFs.ReadonlyHost B, !virtualFs.CordHost C B}.

Implicit Types (h : WebpackCompilerHost C) (p fileName : string) (r : Path).

(** [fileExists] in the default mode says whether the resolved path is a
    file of the merged view. *)
Lemma fileExists_delegate_true h p r :
  resolve h p = Ok r ->
  (fileExists h p true = Ok true <-> file_at (_syncHost h) r).
Proof.
  intros Hr. unfold fileExists, file_at. rewrite Hr. simpl.
  destruct (and_then _ _) as [[|]|e] eqn:Hand; simpl.
  - apply and_then_true in Hand. tauto.
  - split; [discriminate |]. intros Hf. apply and_then_true in Hf. congruence.
  - split; [discriminate |]. intros Hf. apply and_then_true in Hf. congruence.
Qed.

Lemma fileExists_resolves h p (d b : bool) :
  fileExists h p d = Ok b -> exists r, resolve h p = Ok r.
Proof.
  unfold fileExists. intros Hf. apply bind_Ok in Hf as (r & Hr & _). eauto.
Qed.



(** C2. A path whose resolved form does not exist, or exists and is not a
    file, is absent: [fileExists] returns false (in either mode), and
    [readFile] and [readFileBuffer] return [undefined]; none of them
    throws. *)
Theorem absent_path_is_absent h p r :
  resolve h p = Ok r ->
  no_file_at (_syncHost h) r ->
  (forall delegate, fileExists h p delegate = Ok false) /\
  readFile h p = Ok None /\
  readFileBuffer h p = Ok None.
Proof.
  intros Hr Habs. unfold fileExists, readFile, readFileBuffer. rewrite Hr; simpl.
  destruct Habs as [He | [He Hf]]; rewrite He; simpl.
  - split; [intros [|]; reflexivity | split; reflexivity].
  - rewrite Hf; simpl. split; [intros [|]; reflexivity | split; reflexivity].
Qed.

(** Resolving gives an absolute normal form when the base is absolute. *)
Lemma resolve_absolute `{!PathLaws} h p r :
  isAbsolute (_basePath h) = true -> resolve h p = Ok r ->
  isAbsolute r = true /\ normalize r = Ok r.
Proof.
  intros Hbase Hr. unfold resolve in Hr.
  apply bind_Ok in Hr as (n & Hn & Hr).
  destruct (isAbsolute n) eqn:Habs.
  - injection Hr as <-. split; [exact Habs |].
    exact (normalize_absolute _ _ Hn Habs).
  - exact (join_absolute _ _ _ Hbase Hr).
Qed.

(** C3, as amended. With an absolute base path, [resolve] is idempotent:
    a resolved path resolves to itself; and for a relative path [p],
    [resolve] of [join(base, p)] and [resolve] of [p] return the same
    path, each returning when the other does. *)
Theorem resolve_idempotent `{!PathLaws} h :
  isAbsolute (_basePath h) = true ->
  (forall p r, resolve h p = Ok r -> resolve h r = Ok r) /\
  (forall p n r, normalize p = Ok n -> isAbsolute n = false ->
     (join (_basePath h) p ≫= resolve h = Ok r <-> resolve h p = Ok r)).
Proof.
  intros Hbase.
  assert (Hfix : forall p r, resolve h p = Ok r -> resolve h r = Ok r).
  { intros p r Hr. destruct (resolve_absolute h p r Hbase Hr) as [Habs Hnorm].
    unfold resolve. rewrite Hnorm; simpl. rewrite Habs. reflexivity. }
  split; [exact Hfix |].
  intros p n r Hn Hrel.
  assert (Hp : resolve h p = join (_basePath h) n).
  { unfold resolve. rewrite Hn; simpl. rewrite Hrel. reflexivity. }
  rewrite Hp, bind_Ok. split.
  - intros (j & Hj & Hr).
    apply (join_normalized _ _ _ _ Hbase Hn Hrel) in Hj.
    rewrite <- Hp in Hj. rewrite (Hfix _ _ Hj) in Hr. congruence.
  - intros Hj. exists r. split.
    + apply (join_normalized _ _ _ _ Hbase Hn Hrel). exact Hj.
    + apply (Hfix p). rewrite Hp. exact Hj.
Qed.

(** C4. Invalidating a file that exists puts its resolved path among the
    changed paths, and after a reset there are no changed paths. *)
Theorem invalidate_then_changed h p :
  fileExists h p true = Ok true ->
  (exists h' r, invalidate h p = Ok h' /\ resolve h p = Ok r /\
                r ∈ getChangedFilePaths h') /\
  (forall h0 : WebpackCompilerHost C,
     getChangedFilePaths (resetChangedFileTracker h0) = []).
Proof.
  intros He. split; [| reflexivity].
  destruct (fileExists_resolves _ _ _ _ He) as [r Hr].
  unfold invalidate. rewrite Hr, He; simpl.
  eexists _, r. split; [reflexivity |]. split; [reflexivity |].
  unfold getChangedFilePaths; simpl. apply elem_of_Set_add.
Qed.

Lemma fileExists_delegate_false h p r :
  resolve h p = Ok r ->
  (fileExists h p false = Ok true <->
     file_at (_syncHost h) r /\ no_file_at (virtualFs.backend (_syncHost h)) r).
Proof.
  intros Hr. unfold fileExists, file_at, no_file_at. rewrite Hr; simpl.
  rewrite <- and_then_true, <- and_then_false.
  destruct (and_then (virtualFs.exists_ (_syncHost h) r) _) as [[|]|e]; simpl;
    [| intuition congruence | intuition congruence].
  destruct (and_then (virtualFs.exists_ (virtualFs.backend _) r) _) as [[|]|e]; simpl;
    intuition congruence.
Qed.

(** C5. With [delegate = false], [fileExists] is true exactly when the
    resolved path is a file of the merged view and not a file of the
    backend; a file of both gives false. *)
Theorem fileExists_overlay_only h p r :
  resolve h p = Ok r ->
  (fileExists h p false = Ok true <->
     file_at (_syncHost h) r /\ no_file_at (virtualFs.backend (_syncHost h)) r) /\
  (file_at (_syncHost h) r -> file_at (virtualFs.backend (_syncHost h)) r ->
   fileExists h p false = Ok false).
Proof.
  intros Hr. split; [exact (fileExists_delegate_false h p r Hr) |].
  intros Hm Hb. apply and_then_true in Hm, Hb.
  unfold fileExists. rewrite Hr; simpl. rewrite Hm; simpl. rewrite Hb. reflexivity.
Qed.

(** C10. A file that exists with [delegate = false] exists in the default
    mode. *)
Theorem overlay_only_implies_merged h p :
  fileExists h p false = Ok true -> fileExists h p true = Ok true.
Proof.
  intros He. destruct (fileExists_resolves _ _ _ _ He) as [r Hr].
  apply (fileExists_delegate_true _ _ _ Hr).
  apply (fileExists_delegate_false _ _ _ Hr) in He. tauto.
Qed.

(** C6. [getNgFactoryPaths] returns the denormalized paths of the create
    records whose path ends in [.ngfactory.js] or [.ngstyle.js], one for
    each such record and in their order; every path it returns comes from
    such a record; and it returns whenever each of them denormalizes. *)
Theorem getNgFactoryPaths_exact h (all : list virtualFs.CordHostRecord) :
  virtualFs.records (_syncHost h) = Ok all ->
  (forall out, getNgFactoryPaths h = Ok out <->
     Forall2 (fun q x => denormalizePath q = Ok x)
       (List.filter generated (created all)) out) /\
  (forall out x, getNgFactoryPaths h = Ok out ->
     (x ∈ out <->
      exists q content, virtualFs.CordHostCreate q content ∈ all /\
                        generated q = true /\ denormalizePath q = Ok x)) /\
  (Forall (fun q => exists x, denormalizePath q = Ok x)
     (List.filter generated (created all)) ->
   exists out, getNgFactoryPaths h = Ok out).
Proof.
  intros Hall.
  assert (Hcode : getNgFactoryPaths h
                  = map_result denormalizePath (List.filter generated (created all))).
  { unfold getNgFactoryPaths, virtualFiles. rewrite Hall; simpl.
    rewrite create_paths. reflexivity. }
  rewrite Hcode. split; [| split].
  - intros out. apply map_result_Forall2.
  - intros out x Hout. apply map_result_Forall2 in Hout.
    split.
    + intros Hx. apply list_elem_of_lookup in Hx as [i Hi].
      destruct (Forall2_lookup_r _ _ _ _ _ Hout Hi) as (q & Hq & Hqx).
      apply list_elem_of_lookup_2, list_elem_of_In, filter_In in Hq as [Hq Hgen].
      apply list_elem_of_In, elem_of_created in Hq as [content Hq].
      exists q, content. auto.
    + intros (q & content & Hq & Hgen & Hqx).
      assert (Hin : q ∈ List.filter generated (created all)).
      { apply list_elem_of_In, filter_In. split; [| exact Hgen].
        apply list_elem_of_In, elem_of_created. eauto. }
      apply list_elem_of_lookup in Hin as [i Hi].
      destruct (Forall2_lookup_l _ _ _ _ _ Hout Hi) as (x' & Hx' & Hqx').
      rewrite Hqx in Hqx'. injection Hqx' as <-.
      eapply list_elem_of_lookup_2, Hx'.
  - apply map_result_total.
Qed.

(** The properties of the object that [stat] builds: those of the host's
    stats object, and below them those of the literal. *)
Lemma stat_object_lookup (pr : Process) (ino : Z) (s : virtualFs.Stats) (k : string) :
  spread (object_literal (stat_fields pr ino s)) (virtualFs.own_properties s) !! k
  = match virtualFs.own_properties s !! k with
    | Some v => Some v
    | None => object_literal (stat_fields pr ino s) !! k
    end.
Proof.
  unfold spread. rewrite lookup_union.
  destruct (virtualFs.own_properties s !! k), (object_literal _ !! k); reflexivity.
Qed.

Lemma stat_of_existing (pr : Process) h p r (s : virtualFs.Stats) (g : Rng) :
  resolve h p = Ok r ->
  virtualFs.exists_ (_syncHost h) r = Ok true ->
  virtualFs.stat (_syncHost h) r = Ok (Some s) ->
  stat pr h p g
  = Ok (Some (spread (object_literal (stat_fields pr (random_below 100000 g).1 s))
                (virtualFs.own_properties s)),
        (random_below 100000 g).2).
Proof.
  intros Hr He Hs. unfold stat. rewrite Hr; simpl. rewrite He; simpl.
  rewrite Hs; simpl. destruct (random_below 100000 g). reflexivity.
Qed.

Lemma object_literal_agree (fields1 fields2 : list (string * JsValue)) (k : string) :
  Forall2 (fun a b => a.1 = b.1 /\ (a.1 = k -> a.2 = b.2)) fields1 fields2 ->
  object_literal fields1 !! k = object_literal fields2 !! k.
Proof.
  unfold object_literal.
  assert (Hgen : forall o1 o2 : gmap string JsValue, o1 !! k = o2 !! k ->
            Forall2 (fun a b => a.1 = b.1 /\ (a.1 = k -> a.2 = b.2)) fields1 fields2 ->
            foldl (fun o kv => <[kv.1 := kv.2]> o) o1 fields1 !! k
            = foldl (fun o kv => <[kv.1 := kv.2]> o) o2 fields2 !! k).
  { intros o1 o2 Ho Hall. revert o1 o2 Ho.
    induction Hall as [|a b l1 l2 [Hkey Hval] _ IH]; intros o1 o2 Ho; simpl.
    - exact Ho.
    - apply IH. rewrite !lookup_insert, <- Hkey.
      destruct (decide (a.1 = k)) as [Hk|Hk]; [rewrite (Hval Hk); reflexivity | exact Ho]. }
  apply Hgen. reflexivity.
Qed.

Lemma stat_fields_agree (pr : Process) (ino1 ino2 : Z) (s : virtualFs.Stats) (k : string) :
  k <> "ino" ->
  object_literal (stat_fields pr ino1 s) !! k = object_literal (stat_fields pr ino2 s) !! k.
Proof.
  intros Hk. apply object_literal_agree. unfold stat_fields.
  repeat (constructor; [split; [reflexivity | simpl; intros; congruence] |]).
  constructor.
Qed.

Lemma stat_fields_blocks (pr : Process) (ino : Z) (s : virtualFs.Stats) :
  object_literal (stat_fields pr ino s) !! "blocks"
  = Some (VNumber (Math_ceil_div (virtualFs.size s) 512)).
Proof.
  unfold object_literal, stat_fields; simpl.
  repeat (rewrite lookup_insert_ne by discriminate). apply lookup_insert_eq.
Qed.

Lemma stat_fields_ino (pr : Process) (ino : Z) (s : virtualFs.Stats) :
  object_literal (stat_fields pr ino s) !! "ino" = Some (VNumber ino).
Proof.
  unfold object_literal, stat_fields; simpl.
  repeat (rewrite lookup_insert_ne by discriminate). apply lookup_insert_eq.
Qed.

(** A property that is not a declared member of the stats object is one
    of the further properties of the host's object, or none. *)
Lemma own_properties_extra (s : virtualFs.Stats) (k : string) :
  k ∉ ["isFile"; "isDirectory"; "size"; "atime"; "mtime"; "ctime"; "birthtime"] ->
  virtualFs.own_properties s !! k = virtualFs.extra s !! k.
Proof.
  intros Hk. unfold virtualFs.own_properties, spread. rewrite lookup_union.
  unfold object_literal; simpl.
  rewrite !lookup_insert_ne, lookup_empty.
  - destruct (virtualFs.extra s !! k); reflexivity.
  - intros <-. apply Hk. repeat constructor.
  - intros <-. apply Hk. repeat constructor.
  - intros <-. apply Hk. repeat constructor.
  - intros <-. apply Hk. repeat constructor.
  - intros <-. apply Hk. repeat constructor.
  - intros <-. apply Hk. repeat constructor.
  - intros <-. apply Hk. repeat constructor.
Qed.

Lemma stat_Some_inv (pr : Process) h p (g g' : Rng) (o : gmap string JsValue) :
  stat pr h p g = Ok (Some o, g') ->
  exists r s, resolve h p = Ok r /\
    virtualFs.exists_ (_syncHost h) r = Ok true /\
    virtualFs.stat (_syncHost h) r = Ok (Some s).
Proof.
  unfold stat. intros Hs.
  apply bind_Ok in Hs as (r & Hr & Hs).
  apply bind_Ok in Hs as (e & He & Hs).
  apply bind_Ok in Hs as (stats & Hstats & Hs).
  destruct stats as [s|]; [| discriminate].
  destruct e; [| discriminate].
  exists r, s. auto.
Qed.

(** C7, as amended. [stat] returns [null] for a path whose resolved
    form does not exist. For an existing path whose stats object has size
    [n] and no [blocks] property of its own, it returns an object whose
    [blocks] is the ceiling of [n / 512]: the least [k] with
    [n <= 512 * k]. *)
Theorem stat_blocks (pr : Process) h p r (g : Rng) :
  resolve h p = Ok r ->
  (virtualFs.exists_ (_syncHost h) r = Ok false -> stat pr h p g = Ok (None, g)) /\
  (forall s : virtualFs.Stats,
     virtualFs.exists_ (_syncHost h) r = Ok true ->
     virtualFs.stat (_syncHost h) r = Ok (Some s) ->
     virtualFs.extra s !! "blocks" = None ->
     exists o g' k,
       stat pr h p g = Ok (Some o, g') /\
       o !! "blocks" = Some (VNumber k) /\
       k = Math_ceil_div (virtualFs.size s) 512 /\
       (512 * (k - 1) < virtualFs.size s <= 512 * k)%Z).
Proof.
  intros Hr. split.
  - intros He. unfold stat. rewrite Hr; simpl. rewrite He; reflexivity.
  - intros s He Hs Hextra.
    eexists _, _, _. split; [exact (stat_of_existing pr h p r s g Hr He Hs) |].
    split; [| split; [reflexivity | apply Math_ceil_div_least; lia]].
    rewrite stat_object_lookup, own_properties_extra, Hextra.
    + apply stat_fields_blocks.
    + intros Hin. repeat (apply elem_of_cons in Hin as [Hin|Hin]; [discriminate |]).
      inversion Hin.
Qed.

(** C9, as amended. Two calls of [stat] on the same path of an unchanged
    host return objects that agree on every property but [ino]: so on
    [dev], [mode], [nlink], [uid] and [gid]. [ino] is drawn anew by each
    call, unless the host's stats object has one of its own. *)
Theorem stat_placeholders_stable (pr : Process) h p (g g1 g2 : Rng)
    (o1 o2 : gmap string JsValue) :
  stat pr h p g = Ok (Some o1, g1) ->
  stat pr h p g1 = Ok (Some o2, g2) ->
  (forall k, k <> "ino" -> o1 !! k = o2 !! k) /\
  (forall r s, resolve h p = Ok r ->
     virtualFs.stat (_syncHost h) r = Ok (Some s) ->
     virtualFs.extra s !! "ino" = None ->
     o1 !! "ino" = Some (VNumber (random_below 100000 g).1) /\
     o2 !! "ino" = Some (VNumber (random_below 100000 g1).1)).
Proof.
  intros Hfirst Hsecond.
  destruct (stat_Some_inv _ _ _ _ _ _ Hfirst) as (r & s & Hr & He & Hs).
  rewrite (stat_of_existing pr h p r s g Hr He Hs) in Hfirst.
  rewrite (stat_of_existing pr h p r s g1 Hr He Hs) in Hsecond.
  injection Hfirst as <- _. injection Hsecond as <- _.
  split.
  - intros k Hk. rewrite !stat_object_lookup.
    destruct (virtualFs.own_properties s !! k); [reflexivity |].
    apply stat_fields_agree, Hk.
  - intros r' s' Hr' Hs' Hextra.
    rewrite Hr in Hr'. injection Hr' as <-.
    rewrite Hs in Hs'. injection Hs' as <-.
    rewrite !stat_object_lookup, own_properties_extra, Hextra.
    + rewrite !stat_fields_ino. split; reflexivity.
    + intros Hin. repeat (apply elem_of_cons in Hin as [Hin|Hin]; [discriminate |]).
      inversion Hin.
Qed.

(** Whatever the platform, the canonical name is the resolved path. *)
Lemma getCanonicalFileName_is_resolve (pr : Process) h p :
  getCanonicalFileName pr h p = resolve h p.
Proof.
  unfold getCanonicalFileName. destruct (resolve h p); reflexivity.
Qed.

End AdapterProperties.


(** ** Further properties of the methods *)

Section MethodProperties.
Context `{PathOps} `{virtualFs.Codec}.
Context {C B : Type}.
Context `{!virtualFs.ReadonlyHost C, !virtualFs.Host C}.
Context `{!virtualFs.ReadonlyHost B, !virtualFs.CordHost C B}.

Implicit Types (h : WebpackCompilerHost C) (p fileName : string) (r : Path).

(** *** What a method reads *)

Lemma resolve_same_base h h' p :
  _basePath h' = _basePath h -> resolve h' p = resolve h p.
Proof. intros Hb. unfold resolve. rewrite Hb. reflexivity. Qed.

Lemma fileExists_same_host h h' p (delegate : bool) :
  _syncHost h' = _syncHost h -> _basePath h' = _basePath h ->
  fileExists h' p delegate = fileExists h p delegate.
Proof.
  intros Hs Hb. unfold fileExists. rewrite (resolve_same_base _ _ _ Hb), Hs. reflexivity.
Qed.

Lemma readFile_same_host h h' p :
  _syncHost h' = _syncHost h -> _basePath h' = _basePath h ->
  readFile h' p = readFile h p.
Proof.
  intros Hs Hb. unfold readFile. rewrite (resolve_same_base _ _ _ Hb), Hs. reflexivity.
Qed.

Lemma writeFile_inv h h' p (data : string) (bom : bool) (onError : option OnErrorFn)
    (reported : list string) :
  writeFile h p data bom onError = Ok (h', reported) ->
  exists r, resolve h p = Ok r /\
    h' = {| _syncHost := (virtualFs.write (_syncHost h) r (virtualFs.stringToFileBuffer data)).1;
            _changedFiles := _changedFiles h;
            _basePath := _basePath h;
            _resourceLoader := _resourceLoader h |} /\
    reported = match (virtualFs.write (_syncHost h) r (virtualFs.stringToFileBuffer data)).2,
                     onError with
               | Throw message, Some report => [report message]
               | _, _ => []
               end.
Proof.
  unfold writeFile. intros Hw. apply bind_Ok in Hw as (r & Hr & Hw).
  exists r. split; [exact Hr |].
  destruct (virtualFs.write _ _ _) as [host' [[]|message]]; simpl.
  - apply Ok_inj in Hw. injection Hw as <- <-. auto.
  - destruct onError; apply Ok_inj in Hw; injection Hw as <- <-; auto.
Qed.

Lemma invalidate_inv h h' p :
  invalidate h p = Ok h' ->
  exists r (e : bool), resolve h p = Ok r /\ fileExists h p true = Ok e /\
    h' = if e then {| _syncHost := _syncHost h;
                      _changedFiles := Set_add r (_changedFiles h);
                      _basePath := _basePath h;
                      _resourceLoader := _resourceLoader h |}
         else h.
Proof.
  unfold invalidate. intros Hi. apply bind_Ok in Hi as (r & Hr & Hi).
  apply bind_Ok in Hi as (e & He & Hi). exists r, e.
  destruct e; apply Ok_inj in Hi; auto.
Qed.

(** A state that differs from [h] in other fields resolves and reads as
    [h] does. *)
Ltac same_host h p :=
  repeat match goal with
         | |- context [resolve ?x p] =>
             lazymatch x with h => fail | _ => change (resolve x p) with (resolve h p) end
         | |- context [fileExists ?x p ?d] =>
             lazymatch x with h => fail | _ => change (fileExists x p d) with (fileExists h p d) end
         end.

Lemma Set_add_elem_of (x y : string) (s : list string) :
  y ∈ Set_add x s <-> y ∈ s \/ y = x.
Proof.
  unfold Set_add. destruct (decide (x ∈ s)) as [Hin|Hout].
  - split; [auto |]. intros [Hy | ->]; assumption.
  - rewrite elem_of_app, list_elem_of_singleton. reflexivity.
Qed.

Lemma Set_add_NoDup (x : string) (s : list string) : NoDup s -> NoDup (Set_add x s).
Proof.
  intros Hs. unfold Set_add. destruct (decide (x ∈ s)) as [Hin|Hout]; [exact Hs |].
  apply NoDup_app. split; [exact Hs |]. split.
  - intros y Hy Hx. apply list_elem_of_singleton in Hx as ->. contradiction.
  - apply NoDup_singleton.
Qed.

Lemma Set_add_member (x : string) (s : list string) : x ∈ s -> Set_add x s = s.
Proof. intros Hin. unfold Set_add. rewrite decide_True by exact Hin. reflexivity. Qed.

(** *** [writeFile] *)

(** X1. [writeFile] throws exactly when [resolve] throws, and then with
    the same message: the exception of the host's [write] never leaves it,
    with or without an error callback (a callback that returns). *)
Theorem writeFile_throws_as_resolve h p (data : string) (bom : bool)
    (onError : option OnErrorFn) (message : string) :
  writeFile h p data bom onError = Throw message <-> resolve h p = Throw message.
Proof.
  unfold writeFile. destruct (resolve h p) as [r|e]; simpl.
  - destruct (virtualFs.write _ _ _) as [host' [[]|e]]; [| destruct onError];
      split; discriminate.
  - split; intros [= ->]; reflexivity.
Qed.

(** X2. With an error callback, [writeFile] calls it exactly when the
    host's [write] throws: once, and with the message of that exception.
    The host is left as [write] left it in either case. *)
Theorem writeFile_reports_write_exception h h' p r (data : string) (bom : bool)
    (report : OnErrorFn) (reported : list string) :
  resolve h p = Ok r ->
  writeFile h p data bom (Some report) = Ok (h', reported) ->
  let written := virtualFs.write (_syncHost h) r (virtualFs.stringToFileBuffer data) in
  _syncHost h' = written.1 /\
  (reported = [] <-> written.2 = Ok ()) /\
  (forall message, written.2 = Throw message -> reported = [report message]).
Proof.
  intros Hr Hw. apply writeFile_inv in Hw as (r' & Hr' & -> & ->).
  rewrite Hr in Hr'. apply Ok_inj in Hr'. subst r'. cbv zeta. simpl.
  destruct (virtualFs.write _ _ _) as [host' [[]|e]]; simpl.
  - split; [reflexivity |]. split; [tauto | discriminate].
  - split; [reflexivity |]. split; [split; discriminate |].
    intros message [= ->]. reflexivity.
Qed.

(** X3. [writeFile] changes nothing but the host: the changed paths, the
    base path and the resource loader are as before, so every path
    resolves as before. *)
Theorem writeFile_keeps_fields h h' p (data : string) (bom : bool)
    (onError : option OnErrorFn) (reported : list string) :
  writeFile h p data bom onError = Ok (h', reported) ->
  getChangedFilePaths h' = getChangedFilePaths h /\
  getCurrentDirectory h' = getCurrentDirectory h /\
  _resourceLoader h' = _resourceLoader h /\
  (forall q, resolve h' q = resolve h q).
Proof.
  intros Hw. apply writeFile_inv in Hw as (r & _ & -> & _).
  repeat split; reflexivity.
Qed.

(** X4. After a [writeFile] that was given an error callback and did not
    call it, on a host that keeps its promise about writes,
    [readFileBuffer] returns the bytes that [stringToFileBuffer] made of
    the text. *)
Theorem writeFile_then_readFileBuffer h h' p (content : string) (bom : bool)
    (report : OnErrorFn) :
  write_then_read (H := C) ->
  writeFile h p content bom (Some report) = Ok (h', []) ->
  readFileBuffer h' p = Ok (Some (virtualFs.stringToFileBuffer content)).
Proof.
  intros Hhost Hw. apply writeFile_inv in Hw as (r & Hr & -> & Hrep).
  destruct (virtualFs.write _ _ _) as [host' [[]|e]] eqn:Hwrite; [| discriminate].
  apply Hhost in Hwrite as [[He Hf] Hread].
  unfold readFileBuffer. same_host h p. rewrite Hr. simpl.
  rewrite He, Hf. simpl. rewrite Hread. reflexivity.
Qed.

(** *** [readFile] and [readFileBuffer] *)

(** X5. [readFile] is [readFileBuffer] followed by [fileBufferToString]:
    they throw together, are absent together, and the text is the decoding
    of the bytes. *)
Theorem readFile_decodes_readFileBuffer h p :
  readFile h p
  = (fun buffer : option FileBuffer => virtualFs.fileBufferToString <$> buffer)
      <$> readFileBuffer h p.
Proof.
  unfold readFile, readFileBuffer. destruct (resolve h p) as [r|e]; [| reflexivity]. simpl.
  destruct (or_else _ _) as [[|]|e]; [reflexivity | | reflexivity]. simpl.
  destruct (virtualFs.read _ r); reflexivity.
Qed.

(** X6. [readFile] returns a text only for a path for which [fileExists]
    returns true, and then [readFileBuffer] returns bytes. *)
Theorem readFile_text_only_of_file h p (text : string) :
  readFile h p = Ok (Some text) ->
  fileExists h p true = Ok true /\
  exists buffer, readFileBuffer h p = Ok (Some buffer) /\
                 virtualFs.fileBufferToString buffer = text.
Proof.
  unfold readFile, readFileBuffer, fileExists. intros Hread.
  apply bind_Ok in Hread as (r & Hr & Hread). rewrite Hr. simpl.
  destruct (virtualFs.exists_ (_syncHost h) r) as [[|]|e]; try discriminate.
  simpl in *.
  destruct (virtualFs.isFile (_syncHost h) r) as [[|]|e]; try discriminate.
  simpl in *.
  destruct (virtualFs.read (_syncHost h) r) as [buffer|e]; [| discriminate].
  apply Ok_inj in Hread. injection Hread as <-.
  split; [reflexivity |]. exists buffer. auto.
Qed.

(** *** [invalidate] and the changed paths *)

(** X7. [invalidate] is idempotent: a second [invalidate] of the same
    path returns the state that the first one returned. *)
Theorem invalidate_idempotent h h' p :
  invalidate h p = Ok h' -> invalidate h' p = Ok h'.
Proof.
  intros Hi. pose proof Hi as Hi0.
  apply invalidate_inv in Hi as (r & e & Hr & He & ->).
  destruct e; [| exact Hi0].
  unfold invalidate. same_host h p. rewrite Hr, He. simpl.
  rewrite Set_add_member by apply elem_of_Set_add. reflexivity.
Qed.

(** X8. [invalidate] leaves the host, the base path and the loader alone
    and removes no changed path: the changed paths afterwards are those
    before and, when the file exists, its resolved path. *)
Theorem invalidate_adds_one_path h h' p :
  invalidate h p = Ok h' ->
  _syncHost h' = _syncHost h /\
  getCurrentDirectory h' = getCurrentDirectory h /\
  _resourceLoader h' = _resourceLoader h /\
  (forall q, q ∈ getChangedFilePaths h' <->
     q ∈ getChangedFilePaths h \/
     (fileExists h p true = Ok true /\ resolve h p = Ok q)).
Proof.
  intros Hi. apply invalidate_inv in Hi as (r & e & Hr & He & ->).
  destruct e; simpl; repeat split; try reflexivity.
  - unfold getChangedFilePaths; simpl. rewrite Set_add_elem_of.
    intros [Hq | ->]; auto.
  - unfold getChangedFilePaths; simpl. rewrite Set_add_elem_of.
    intros [Hq | [_ Hq]]; [auto |]. right. congruence.
  - auto.
  - intros [Hq | [Hf _]]; [exact Hq | congruence].
Qed.

(** X9. After a reset, invalidating an existing file makes its resolved
    path the one changed path. *)
Theorem reset_then_invalidate h p r :
  fileExists h p true = Ok true ->
  resolve h p = Ok r ->
  exists h', invalidate (resetChangedFileTracker h) p = Ok h' /\
             getChangedFilePaths h' = [r].
Proof.
  intros He Hr. unfold invalidate. same_host h p. rewrite Hr, He. simpl.
  eexists. split; reflexivity.
Qed.

(** *** [getDirectories] *)

(** X10. Once the path resolves, [getDirectories] returns and does not
    throw: the empty list when the host cannot list the path, and otherwise
    the listed names whose [join] to the path is a directory of the host;
    a name whose check throws is left out. *)
Theorem getDirectories_lists_directories h p r :
  resolve h p = Ok r ->
  exists out, getDirectories h p = Ok out /\
    (forall e, virtualFs.list_ (_syncHost h) r = Throw e -> out = []) /\
    (forall x, x ∈ out <->
       exists names q, virtualFs.list_ (_syncHost h) r = Ok names /\ x ∈ names /\
                       join r x = Ok q /\
                       virtualFs.isDirectory (_syncHost h) q = Ok true).
Proof.
  intros Hr. unfold getDirectories. rewrite Hr. simpl.
  eexists. split; [reflexivity |].
  destruct (virtualFs.list_ (_syncHost h) r) as [names|e].
  - split; [discriminate |]. intros x.
    rewrite list_elem_of_In, filter_In, <- list_elem_of_In. split.
    + intros [Hx Hdir]. destruct (join r x) as [q|e]; [| discriminate]. simpl in Hdir.
      destruct (virtualFs.isDirectory (_syncHost h) q) as [[|]|e] eqn:Hq; try discriminate.
      exists names, q. auto.
    + intros (names' & q & Hnames & Hx & Hq & Hdir). apply Ok_inj in Hnames. subst names'.
      split; [exact Hx |]. rewrite Hq. simpl. rewrite Hdir. reflexivity.
  - split; [reflexivity |]. intros x. split; [intros Hx; inversion Hx |].
    intros (names & q & Hnames & _). discriminate.
Qed.

(** *** [workaroundResolve] and [getSourceFile] *)

Lemma backslashes_to_slashes_clean (s : string) :
  ~ has_backslash (backslashes_to_slashes s).
Proof.
  unfold has_backslash. induction s as [|c s IH]; simpl; [tauto |].
  intros [Hc | Hin]; [| exact (IH Hin)].
  destruct (Ascii.eqb_spec c (ascii_of_nat 92)) as [->|Hne]; [discriminate | congruence].
Qed.

(** X11. The path that [workaroundResolve] returns has no backslash,
    whatever the system path of the host looks like. *)
Theorem workaroundResolve_no_backslash (path name : string) :
  workaroundResolve path = Ok name -> ~ has_backslash name.
Proof.
  unfold workaroundResolve. destruct (getSystemPath <$> normalize path) as [s|e];
    [| discriminate].
  intros Hname. apply Ok_inj in Hname. subst name. apply backslashes_to_slashes_clean.
Qed.

Lemma readFile_normalizes h p (content : option string) :
  readFile h p = Ok content -> exists n, normalize p = Ok n.
Proof.
  unfold readFile, resolve. intros Hread.
  apply bind_Ok in Hread as (r & Hr & _). apply bind_Ok in Hr as (n & Hn & _). eauto.
Qed.

(** X12. When [readFile] returns a text, [getSourceFile] returns a source
    file and reports nothing: the source file holds that text and the
    language version asked for, parent nodes are set, and its name is
    [workaroundResolve] of the name given, not the resolved path. *)
Theorem getSourceFile_of_text h p (content : string) (languageVersion : Z)
    (onError : option OnErrorFn) :
  readFile h p = Ok (Some content) ->
  exists name, workaroundResolve p = Ok name /\
    getSourceFile h p languageVersion onError
    = (Some (createSourceFile name content languageVersion true), []).
Proof.
  intros Hread. destruct (readFile_normalizes _ _ _ Hread) as [n Hn].
  exists (backslashes_to_slashes (getSystemPath n)).
  unfold getSourceFile, workaroundResolve. rewrite Hread, Hn. split; reflexivity.
Qed.

(** X13. [getSourceFile] does not throw. What [readFile] throws, the
    exception of [resolve] too, goes to the error callback, and without a
    callback it is dropped; in both cases no source file is returned. *)
Theorem getSourceFile_reports_exception h p (languageVersion : Z) (report : OnErrorFn)
    (message : string) :
  readFile h p = Throw message ->
  getSourceFile h p languageVersion (Some report) = (None, [report message]) /\
  getSourceFile h p languageVersion None = (None, []).
Proof.
  intros Hread. unfold getSourceFile. rewrite Hread. split; reflexivity.
Qed.

(** X14. For a path for which [fileExists] returns false,
    [getSourceFile] returns no source file and does not call the error
    callback. *)
Theorem getSourceFile_of_absent h p (languageVersion : Z) (onError : option OnErrorFn) :
  fileExists h p true = Ok false ->
  getSourceFile h p languageVersion onError = (None, []).
Proof.
  intros He. unfold fileExists in He. apply bind_Ok in He as (r & Hr & He).
  apply bind_Ok in He as (e & Hand & He). apply Ok_inj in He. subst e.
  apply and_then_false in Hand.
  unfold getSourceFile, readFile. rewrite Hr. simpl.
  destruct Hand as [Hx | [Hx Hf]]; rewrite Hx; simpl; [reflexivity |].
  rewrite Hf. reflexivity.
Qed.

(** *** [stat] *)

Lemma own_properties_size (s : virtualFs.Stats) :
  virtualFs.own_properties s !! "size" = Some (VNumber (virtualFs.size s)).
Proof.
  unfold virtualFs.own_properties, spread, object_literal; simpl.
  apply lookup_union_Some_l.
  repeat (rewrite lookup_insert_ne by discriminate). apply lookup_insert_eq.
Qed.

(** X15. The object that [stat] returns has every own property of the
    host's stats object, with the host's value; so the size is the host's. *)
Theorem stat_keeps_host_properties (pr : Process) h p r (s : virtualFs.Stats)
    (g g' : Rng) (o : gmap string JsValue) :
  resolve h p = Ok r ->
  virtualFs.stat (_syncHost h) r = Ok (Some s) ->
  stat pr h p g = Ok (Some o, g') ->
  (forall k v, virtualFs.own_properties s !! k = Some v -> o !! k = Some v) /\
  o !! "size" = Some (VNumber (virtualFs.size s)).
Proof.
  intros Hr Hs Hstat.
  destruct (stat_Some_inv _ _ _ _ _ _ Hstat) as (r' & s' & Hr' & He & Hs').
  rewrite Hr in Hr'. apply Ok_inj in Hr'. subst r'.
  rewrite (stat_of_existing pr h p r s g Hr He Hs) in Hstat.
  apply Ok_inj in Hstat. injection Hstat as <- _.
  assert (Hkeep : forall k v, virtualFs.own_properties s !! k = Some v ->
            spread (object_literal (stat_fields pr (random_below 100000 g).1 s))
              (virtualFs.own_properties s) !! k = Some v).
  { intros k v Hk. rewrite stat_object_lookup, Hk. reflexivity. }
  split; [exact Hkeep | apply Hkeep, own_properties_size].
Qed.

(** X16. Where the host's stats object has only the declared members,
    [stat] fills in: the [dev] of the process, mode 0777, one link, owner
    and group 0, blocks of 512 bytes, and the four time stamps in
    milliseconds. *)
Theorem stat_fabricated_fields (pr : Process) h p r (s : virtualFs.Stats)
    (g g' : Rng) (o : gmap string JsValue) :
  resolve h p = Ok r ->
  virtualFs.stat (_syncHost h) r = Ok (Some s) ->
  virtualFs.extra s = ∅ ->
  stat pr h p g = Ok (Some o, g') ->
  o !! "dev" = Some (VNumber (dev pr)) /\
  o !! "mode" = Some (VNumber 511) /\
  o !! "nlink" = Some (VNumber 1) /\
  o !! "uid" = Some (VNumber 0) /\
  o !! "gid" = Some (VNumber 0) /\
  o !! "rdev" = Some (VNumber 0) /\
  o !! "blksize" = Some (VNumber 512) /\
  o !! "atimeMs" = Some (VNumber (virtualFs.atime s)) /\
  o !! "mtimeMs" = Some (VNumber (virtualFs.mtime s)) /\
  o !! "ctimeMs" = Some (VNumber (virtualFs.ctime s)) /\
  o !! "birthtimeMs" = Some (VNumber (virtualFs.birthtime s)).
Proof.
  intros Hr Hs Hextra Hstat.
  destruct (stat_Some_inv _ _ _ _ _ _ Hstat) as (r' & s' & Hr' & He & Hs').
  rewrite Hr in Hr'. apply Ok_inj in Hr'. subst r'.
  rewrite (stat_of_existing pr h p r s g Hr He Hs) in Hstat.
  apply Ok_inj in Hstat. injection Hstat as <- _.
  assert (Hfill : forall k, k ∉ ["isFile"; "isDirectory"; "size"; "atime"; "mtime";
                                "ctime"; "birthtime"] ->
            spread (object_literal (stat_fields pr (random_below 100000 g).1 s))
              (virtualFs.own_properties s) !! k
            = object_literal (stat_fields pr (random_below 100000 g).1 s) !! k).
  { intros k Hk. rewrite stat_object_lookup, (own_properties_extra s k Hk), Hextra.
    rewrite lookup_empty. reflexivity. }
  repeat split;
    (rewrite Hfill;
     [ unfold object_literal, stat_fields; simpl;
       repeat (rewrite lookup_insert_ne by discriminate); apply lookup_insert_eq
     | intros Hin; repeat (apply elem_of_cons in Hin as [Hin|Hin]; [discriminate |]);
       inversion Hin ]).
Qed.

(** *** [getCanonicalFileName] and [readResource] *)

(** X17. [getCanonicalFileName] does not depend on the platform: on each
    it returns what [resolve] returns, capitals kept, and throws when
    [resolve] throws. *)
Theorem getCanonicalFileName_any_platform (pr pr' : Process) h p :
  getCanonicalFileName pr h p = getCanonicalFileName pr' h p /\
  getCanonicalFileName pr h p = resolve h p.
Proof.
  unfold getCanonicalFileName. destruct (resolve h p); split; reflexivity.
Qed.

(** X18. With a resource loader, [readResource] reads no file and does not
    use the base path: it normalizes the name, denormalizes it and asks the
    loader, so two hosts with the same loader return the same for the same
    name. *)
Theorem readResource_by_loader h (h' : WebpackCompilerHost C) p
    (loader : WebpackResourceLoader) :
  _resourceLoader h = Some loader ->
  _resourceLoader h' = Some loader ->
  readResource h p = readResource h' p /\
  readResource h p = (n ← normalize p; name ← denormalizePath n; Some <$> get loader name).
Proof.
  unfold readResource. intros -> ->. split; reflexivity.
Qed.

(** X21. [directoryExists] is true exactly when the resolved path exists
    and is a directory of the host; for a path that does not exist it is
    false, and the host is not asked whether the path is a directory. *)
Theorem directoryExists_of_resolved h p r :
  resolve h p = Ok r ->
  (directoryExists h p = Ok true <->
     virtualFs.exists_ (_syncHost h) r = Ok true /\
     virtualFs.isDirectory (_syncHost h) r = Ok true) /\
  (virtualFs.exists_ (_syncHost h) r = Ok false -> directoryExists h p = Ok false).
Proof.
  intros Hr. unfold directoryExists. rewrite Hr. simpl. split.
  - apply and_then_true.
  - intros He. rewrite He. reflexivity.
Qed.

(** *** The states a host goes through *)

Lemma reachable_base (basePath : string) (host : B) h :
  reachable basePath host h -> normalize basePath = Ok (_basePath h).
Proof.
  induction 1 as [h Hc | h p h' _ IH Hi | h _ IH | h p data bom cb h' rep _ IH Hw | h l _ IH].
  - unfold constructor in Hc. apply bind_Ok in Hc as (base & Hbase & Hc).
    apply Ok_inj in Hc. subst h. exact Hbase.
  - apply invalidate_inv in Hi as (r & e & _ & _ & ->). destruct e; exact IH.
  - exact IH.
  - apply writeFile_inv in Hw as (r & _ & -> & _). exact IH.
  - exact IH.
Qed.

(** X19. In every state of a host, the current directory is the normal
    form of the base path given to the constructor, and no path is listed
    twice among the changed paths, however often it was invalidated. *)
Theorem reachable_changed_NoDup (basePath : string) (host : B) h :
  reachable basePath host h ->
  normalize basePath = Ok (getCurrentDirectory h) /\
  NoDup (getChangedFilePaths h).
Proof.
  intros Hreach. split; [exact (reachable_base _ _ _ Hreach) |].
  unfold getChangedFilePaths.
  induction Hreach
    as [h Hc | h p h' _ IH Hi | h _ IH | h p data bom cb h' rep _ IH Hw | h l _ IH].
  - unfold constructor in Hc. apply bind_Ok in Hc as (base & _ & Hc).
    apply Ok_inj in Hc. subst h. apply NoDup_nil_2.
  - apply invalidate_inv in Hi as (r & e & _ & _ & ->).
    destruct e; [apply Set_add_NoDup |]; exact IH.
  - apply NoDup_nil_2.
  - apply writeFile_inv in Hw as (r & _ & -> & _). exact IH.
  - exact IH.
Qed.

(** X20. When the base path given to the constructor is absolute, every
    changed path of every state is an absolute path that resolves to
    itself. *)
Theorem reachable_changed_resolved `{!PathLaws} (basePath : string) (host : B) h :
  reachable basePath host h ->
  isAbsolute (getCurrentDirectory h) = true ->
  forall q, q ∈ getChangedFilePaths h -> isAbsolute q = true /\ resolve h q = Ok q.
Proof.
  intros Hreach Habs.
  assert (Hfix : forall q, isAbsolute q = true -> normalize q = Ok q -> resolve h q = Ok q).
  { intros q Hq Hn. unfold resolve. rewrite Hn. simpl. rewrite Hq. reflexivity. }
  enough (Hinv : forall q, q ∈ getChangedFilePaths h ->
                   isAbsolute q = true /\ normalize q = Ok q).
  { intros q Hq. destruct (Hinv q Hq). auto. }
  clear Hfix. unfold getChangedFilePaths, getCurrentDirectory in *.
  induction Hreach
    as [h Hc | h p h' _ IH Hi | h _ IH | h p data bom cb h' rep _ IH Hw | h l _ IH].
  - unfold constructor in Hc. apply bind_Ok in Hc as (base & _ & Hc).
    apply Ok_inj in Hc. subst h. intros q Hq. inversion Hq.
  - apply invalidate_inv in Hi as (r & e & Hr & _ & ->).
    destruct e; [| exact (IH Habs)]. simpl in *.
    intros q Hq. apply Set_add_elem_of in Hq as [Hq | ->]; [exact (IH Habs q Hq) |].
    exact (resolve_absolute h p r Habs Hr).
  - intros q Hq. inversion Hq.
  - apply writeFile_inv in Hw as (r & _ & -> & _). exact (IH Habs).
  - exact (IH Habs).
Qed.

End MethodProperties.

(** ** The properties on the project *)

Import Scenario.

Example constructor_absolute : constructor "/project" disk = Ok host0.
Proof. reflexivity. Qed.

Example constructor_relative : constructor "project" disk = Ok host_relative.
Proof. reflexivity. Qed.



Lemma absent_path_is_absent_witness :
  (forall delegate, fileExists host0 "src" delegate = Ok false) /\
  readFile host0 "src" = Ok None /\
  readFileBuffer host0 "src" = Ok None.
Proof.
  apply (absent_path_is_absent host0 "src" "/project/src").
  - reflexivity.
  - right. split; reflexivity.
Defined.

Lemma resolve_idempotent_witness :
  (forall p r, resolve host0 p = Ok r -> resolve host0 r = Ok r) /\
  (forall p n r, normalize p = Ok n -> isAbsolute n = false ->
     (join (_basePath host0) p ≫= resolve host0 = Ok r <-> resolve host0 p = Ok r)).
Proof.
  apply (resolve_idempotent host0). reflexivity.
Defined.

(** C3, as stated: with the relative base [project], the path [a] resolves
    to [project/a], which resolves to [project/project/a]; and [join] of
    the base and [a] is [project/a] as well. *)
Lemma resolve_relative_base :
  constructor "project" disk = Ok host_relative /\
  resolve host_relative "a" = Ok "project/a" /\
  resolve host_relative "project/a" = Ok "project/project/a" /\
  join (_basePath host_relative) "a" = Ok "project/a".
Proof. vm_compute. auto. Qed.

Lemma invalidate_then_changed_witness :
  (exists h' r, invalidate host0 "src/main.ts" = Ok h' /\
                resolve host0 "src/main.ts" = Ok r /\
                r ∈ getChangedFilePaths h') /\
  (forall h0 : WebpackCompilerHost MemoryFs.Cord,
     getChangedFilePaths (resetChangedFileTracker h0) = []).
Proof.
  apply (invalidate_then_changed host0 "src/main.ts"). reflexivity.
Defined.

Lemma fileExists_overlay_only_witness :
  (fileExists host1 "src/a.ts" false = Ok true <->
     file_at (_syncHost host1) "/project/src/a.ts" /\
     no_file_at (virtualFs.backend (_syncHost host1)) "/project/src/a.ts") /\
  (file_at (_syncHost host1) "/project/src/a.ts" ->
   file_at (virtualFs.backend (_syncHost host1)) "/project/src/a.ts" ->
   fileExists host1 "src/a.ts" false = Ok false).
Proof.
  apply (fileExists_overlay_only host1 "src/a.ts" "/project/src/a.ts"). reflexivity.
Defined.

(** A file written through the host is in the overlay only; a file of the
    disk is in both layers. *)
Example fileExists_modes :
  fileExists host1 "src/a.ts" false = Ok true /\
  fileExists host1 "src/main.ts" true = Ok true /\
  fileExists host1 "src/main.ts" false = Ok false.
Proof. repeat split; reflexivity. Qed.

Lemma overlay_only_implies_merged_witness :
  fileExists host1 "src/a.ts" true = Ok true.
Proof.
  apply (overlay_only_implies_merged host1 "src/a.ts"). reflexivity.
Defined.

Lemma getNgFactoryPaths_exact_witness :
  (forall out, getNgFactoryPaths host2 = Ok out <->
     Forall2 (fun q x => denormalizePath q = Ok x)
       (List.filter generated (created records2)) out) /\
  (forall out x, getNgFactoryPaths host2 = Ok out ->
     (x ∈ out <->
      exists q content, virtualFs.CordHostCreate q content ∈ records2 /\
                        generated q = true /\ denormalizePath q = Ok x)) /\
  (Forall (fun q => exists x, denormalizePath q = Ok x)
     (List.filter generated (created records2)) ->
   exists out, getNgFactoryPaths host2 = Ok out).
Proof.
  apply (getNgFactoryPaths_exact host2 records2). reflexivity.
Defined.

Example getNgFactoryPaths_host2 :
  getNgFactoryPaths host2
  = Ok ["/project/src/app.component.ngfactory.js";
        "/project/src/app.component.css.shim.ngstyle.js"].
Proof. reflexivity. Qed.

Lemma stat_blocks_witness :
  (virtualFs.exists_ (_syncHost host0) "/project/src/main.ts" = Ok false ->
   stat linux host0 "src/main.ts" rng1 = Ok (None, rng1)) /\
  (forall s : virtualFs.Stats,
     virtualFs.exists_ (_syncHost host0) "/project/src/main.ts" = Ok true ->
     virtualFs.stat (_syncHost host0) "/project/src/main.ts" = Ok (Some s) ->
     virtualFs.extra s !! "blocks" = None ->
     exists o g' k,
       stat linux host0 "src/main.ts" rng1 = Ok (Some o, g') /\
       o !! "blocks" = Some (VNumber k) /\
       k = Math_ceil_div (virtualFs.size s) 512 /\
       (512 * (k - 1) < virtualFs.size s <= 512 * k)%Z).
Proof.
  apply (stat_blocks linux host0 "src/main.ts" "/project/src/main.ts" rng1). reflexivity.
Defined.

(** C7, as stated: the file [big.bin] has 1024 bytes, and its stats object
    has a [blocks] of its own, 8; [stat] returns that and not 2. *)
Lemma stat_blocks_of_host :
  virtualFs.stat (_syncHost host0) "/project/big.bin"
  = Ok (Some (MemoryFs.node_stats big_bin)) /\
  virtualFs.size (MemoryFs.node_stats big_bin) = 1024%Z /\
  stat linux host0 "big.bin" rng1 = Ok (Some big_stat.1, big_stat.2) /\
  big_stat.1 !! "blocks" = Some (VNumber 8) /\
  Math_ceil_div 1024 512 = 2%Z.
Proof. repeat split; reflexivity. Qed.

Example stat_absent : stat linux host0 "nothing" rng1 = Ok (None, rng1).
Proof. reflexivity. Qed.

Lemma stat_placeholders_stable_witness :
  (forall k, k <> "ino" -> first_stat.1 !! k = second_stat.1 !! k) /\
  (forall r s, resolve host0 "src/main.ts" = Ok r ->
     virtualFs.stat (_syncHost host0) r = Ok (Some s) ->
     virtualFs.extra s !! "ino" = None ->
     first_stat.1 !! "ino" = Some (VNumber (random_below 100000 rng1).1) /\
     second_stat.1 !! "ino" = Some (VNumber (random_below 100000 first_stat.2).1)).
Proof.
  apply (stat_placeholders_stable linux host0 "src/main.ts" rng1 first_stat.2 second_stat.2).
  - reflexivity.
  - reflexivity.
Defined.

(** C9, as stated: two calls of [stat] on the same path return the [ino]
    25000 and the [ino] 50000. *)
Lemma stat_ino_changes :
  stat linux host0 "src/main.ts" rng1 = Ok (Some first_stat.1, first_stat.2) /\
  stat linux host0 "src/main.ts" first_stat.2 = Ok (Some second_stat.1, second_stat.2) /\
  first_stat.1 !! "ino" = Some (VNumber 25000) /\
  second_stat.1 !! "ino" = Some (VNumber 50000).
Proof. repeat split; reflexivity. Qed.

(** C8. On [win32] the host is not case-sensitive, and the canonical name
    of [Src/App.ts] keeps its capitals: it is the resolved path, not that
    path in lower case. *)
Theorem getCanonicalFileName_win32 :
  useCaseSensitiveFileNames win32 = false /\
  getCanonicalFileName win32 host0 "Src/App.ts" = Ok "/project/Src/App.ts" /\
  toLowerCase "/project/Src/App.ts" = "/project/src/app.ts".
Proof. repeat split; reflexivity. Qed.

(** ** The further properties on the project *)

Lemma writeFile_reports_write_exception_witness :
  let written := virtualFs.write (_syncHost host0) "/project/src"
                   (virtualFs.stringToFileBuffer "x") in
  _syncHost host_src = written.1 /\
  (["Path /project/src is a directory."] = [] <-> written.2 = Ok ()) /\
  (forall message, written.2 = Throw message ->
     ["Path /project/src is a directory."] = [id message]).
Proof.
  apply (writeFile_reports_write_exception host0 host_src "src" "/project/src" "x" false id).
  - reflexivity.
  - vm_compute. reflexivity.
Defined.

Lemma writeFile_keeps_fields_witness :
  getChangedFilePaths host1 = getChangedFilePaths host0 /\
  getCurrentDirectory host1 = getCurrentDirectory host0 /\
  _resourceLoader host1 = _resourceLoader host0 /\
  (forall q, resolve host1 q = resolve host0 q).
Proof.
  apply (writeFile_keeps_fields host0 host1 "src/a.ts" "export const x = 1;" false
           (Some id) []).
  vm_compute. reflexivity.
Defined.

Lemma writeFile_then_readFileBuffer_witness :
  readFileBuffer host1 "src/a.ts"
  = Ok (Some (virtualFs.stringToFileBuffer "export const x = 1;")).
Proof.
  apply (writeFile_then_readFileBuffer host0 host1 "src/a.ts" "export const x = 1;" false id).
  - exact MemoryFsFacts.cord_write_then_read.
  - vm_compute. reflexivity.
Defined.

Lemma readFile_text_only_of_file_witness :
  fileExists host1 "src/a.ts" true = Ok true /\
  exists buffer, readFileBuffer host1 "src/a.ts" = Ok (Some buffer) /\
                 virtualFs.fileBufferToString buffer = "export const x = 1;".
Proof.
  apply (readFile_text_only_of_file host1 "src/a.ts" "export const x = 1;").
  reflexivity.
Defined.

Lemma invalidate_idempotent_witness :
  invalidate host_changed "src/main.ts" = Ok host_changed.
Proof.
  apply (invalidate_idempotent host1 host_changed "src/main.ts"). reflexivity.
Defined.

Lemma invalidate_adds_one_path_witness :
  _syncHost host_changed = _syncHost host1 /\
  getCurrentDirectory host_changed = getCurrentDirectory host1 /\
  _resourceLoader host_changed = _resourceLoader host1 /\
  (forall q, q ∈ getChangedFilePaths host_changed <->
     q ∈ getChangedFilePaths host1 \/
     (fileExists host1 "src/main.ts" true = Ok true /\
      resolve host1 "src/main.ts" = Ok q)).
Proof.
  apply (invalidate_adds_one_path host1 host_changed "src/main.ts"). reflexivity.
Defined.

Lemma reset_then_invalidate_witness :
  exists h', invalidate (resetChangedFileTracker host_changed) "src/a.ts" = Ok h' /\
             getChangedFilePaths h' = ["/project/src/a.ts"].
Proof.
  apply (reset_then_invalidate host_changed "src/a.ts" "/project/src/a.ts"); reflexivity.
Defined.

Lemma getDirectories_lists_directories_witness :
  exists out, getDirectories host1 "" = Ok out /\
    (forall e, virtualFs.list_ (_syncHost host1) "/project" = Throw e -> out = []) /\
    (forall x, x ∈ out <->
       exists names q, virtualFs.list_ (_syncHost host1) "/project" = Ok names /\
                       x ∈ names /\ join "/project" x = Ok q /\
                       virtualFs.isDirectory (_syncHost host1) q = Ok true).
Proof.
  apply (getDirectories_lists_directories host1 "" "/project"). reflexivity.
Defined.

Example getDirectories_project :
  getDirectories host1 "" = Ok ["src"] /\ getDirectories host1 "nothing" = Ok [].
Proof. split; reflexivity. Qed.

Lemma workaroundResolve_no_backslash_witness :
  workaroundResolve "C:\Project\src\a.ts" = Ok "/C/Project/src/a.ts" /\
  ~ has_backslash "/C/Project/src/a.ts".
Proof.
  split; [reflexivity |].
  apply (workaroundResolve_no_backslash "C:\Project\src\a.ts" "/C/Project/src/a.ts").
  reflexivity.
Defined.

Lemma getSourceFile_of_text_witness :
  exists name, workaroundResolve "src/a.ts" = Ok name /\
    getSourceFile host1 "src/a.ts" 2 None
    = (Some (createSourceFile name "export const x = 1;" 2 true), []).
Proof.
  apply (getSourceFile_of_text host1 "src/a.ts" "export const x = 1;" 2 None).
  reflexivity.
Defined.

Lemma getSourceFile_reports_exception_witness :
  getSourceFile host0 "/.." 2 (Some id) = (None, [id "Path /.. is invalid."]) /\
  getSourceFile host0 "/.." 2 None = (None, []).
Proof.
  apply (getSourceFile_reports_exception host0 "/.." 2 id "Path /.. is invalid.").
  reflexivity.
Defined.

Lemma getSourceFile_of_absent_witness :
  getSourceFile host0 "src" 2 (Some id) = (None, []).
Proof.
  apply (getSourceFile_of_absent host0 "src" 2 (Some id)). reflexivity.
Defined.

Lemma stat_keeps_host_properties_witness :
  (forall k v, virtualFs.own_properties (MemoryFs.node_stats big_bin) !! k = Some v ->
               big_stat.1 !! k = Some v) /\
  big_stat.1 !! "size" = Some (VNumber (virtualFs.size (MemoryFs.node_stats big_bin))).
Proof.
  apply (stat_keeps_host_properties linux host0 "big.bin" "/project/big.bin"
           (MemoryFs.node_stats big_bin) rng1 big_stat.2 big_stat.1); reflexivity.
Defined.

Lemma stat_fabricated_fields_witness :
  first_stat.1 !! "dev" = Some (VNumber (dev linux)) /\
  first_stat.1 !! "mode" = Some (VNumber 511) /\
  first_stat.1 !! "nlink" = Some (VNumber 1) /\
  first_stat.1 !! "uid" = Some (VNumber 0) /\
  first_stat.1 !! "gid" = Some (VNumber 0) /\
  first_stat.1 !! "rdev" = Some (VNumber 0) /\
  first_stat.1 !! "blksize" = Some (VNumber 512) /\
  first_stat.1 !! "atimeMs" = Some (VNumber (virtualFs.atime (MemoryFs.node_stats main_ts))) /\
  first_stat.1 !! "mtimeMs" = Some (VNumber (virtualFs.mtime (MemoryFs.node_stats main_ts))) /\
  first_stat.1 !! "ctimeMs" = Some (VNumber (virtualFs.ctime (MemoryFs.node_stats main_ts))) /\
  first_stat.1 !! "birthtimeMs"
  = Some (VNumber (virtualFs.birthtime (MemoryFs.node_stats main_ts))).
Proof.
  apply (stat_fabricated_fields linux host0 "src/main.ts" "/project/src/main.ts"
           (MemoryFs.node_stats main_ts) rng1 first_stat.2 first_stat.1); reflexivity.
Defined.

Lemma readResource_by_loader_witness :
  readResource (setResourceLoader host0 echo_loader) "src/app.component.html"
  = readResource (setResourceLoader host1 echo_loader) "src/app.component.html" /\
  readResource (setResourceLoader host0 echo_loader) "src/app.component.html"
  = (n ← normalize "src/app.component.html"; name ← denormalizePath n;
     Some <$> get echo_loader name).
Proof.
  apply (readResource_by_loader (setResourceLoader host0 echo_loader)
           (setResourceLoader host1 echo_loader) "src/app.component.html" echo_loader);
    reflexivity.
Defined.

Example readResource_echo :
  readResource (setResourceLoader host0 echo_loader) "src/app.component.html"
  = Ok (Some "resource src/app.component.html").
Proof. reflexivity. Qed.

Lemma directoryExists_of_resolved_witness :
  (directoryExists host0 "src" = Ok true <->
     virtualFs.exists_ (_syncHost host0) "/project/src" = Ok true /\
     virtualFs.isDirectory (_syncHost host0) "/project/src" = Ok true) /\
  (virtualFs.exists_ (_syncHost host0) "/project/src" = Ok false ->
   directoryExists host0 "src" = Ok false).
Proof.
  apply (directoryExists_of_resolved host0 "src" "/project/src"). reflexivity.
Defined.

Lemma host_changed_reachable : reachable "/project" disk host_changed.
Proof.
  apply (reach_invalidate _ _ host1 "src/main.ts"); [| reflexivity].
  apply (reach_writeFile _ _ host0 "src/a.ts" "export const x = 1;" false (Some id) host1 []);
    [| vm_compute; reflexivity].
  apply reach_constructor. reflexivity.
Qed.

Lemma reachable_changed_NoDup_witness :
  normalize "/project" = Ok (getCurrentDirectory host_changed) /\
  NoDup (getChangedFilePaths host_changed).
Proof.
  apply (reachable_changed_NoDup "/project" disk host_changed).
  exact host_changed_reachable.
Defined.

Lemma reachable_changed_resolved_witness :
  Forall (fun q => isAbsolute q = true /\ resolve host_changed q = Ok q)
    (getChangedFilePaths host_changed).
Proof.
  apply Forall_forall.
  apply (reachable_changed_resolved "/project" disk host_changed).
  - exact host_changed_reachable.
  - reflexivity.
Defined.
